(** * Semantic-property search and link flow (properties-search.tsx)

    A shallow embedding of the [PropertiesSearch] component: its URL
    state synchronisation, debounced search handler, property selection,
    link enrichment and link-assignment cascade.

    Conventions of the embedding.
    - A JavaScript string is modelled by the sequence of its UTF-8 bytes
      (a [string] of the Standard Library).  [split], [includes] and [===]
      on the ASCII separators used by the component act on bytes exactly as
      they act on code units; percent-encoding is defined on UTF-8 bytes by
      the URL standard; [trim] recognises the UTF-8 encodings of the
      ECMAScript white space and line terminator code points.
    - A value that may be [null] or [undefined] is an [option].
    - [useState] cells, the router location and the toasts shown are the
      fields of one record, [State].
    - An [async] function is a term of the free monad [proc]: synchronous
      writes to the state and [await]s of a request, whose answer the
      environment supplies.  [console.error] calls are not modelled: they
      change nothing the component reads. *)

From Stdlib Require Import String Ascii List Bool Arith NArith Lia.
Import ListNotations.
Local Open Scope string_scope.
Local Open Scope list_scope.

(* ===================================================================== *)
(** * JavaScript strings                                                  *)
(* ===================================================================== *)

Module Js.

(** Truthiness of a string: every string but the empty one. *)
Definition truthy (s : string) : bool :=
  match s with
  | EmptyString => false
  | String _ _ => true
  end.

(** [a || b] on strings. *)
Definition or_else (a b : string) : string :=
  if truthy a then a else b.

(** [a || b] where [a] may be [null] or [undefined]. *)
Definition opt_or (a : option string) (b : string) : string :=
  match a with
  | Some s => or_else s b
  | None => b
  end.

Definition code (c : ascii) : N := N_of_ascii c.

(** [s.includes(c)] for a one-character needle. *)
Fixpoint includes (c : ascii) (s : string) : bool :=
  match s with
  | EmptyString => false
  | String a r => Ascii.eqb a c || includes c r
  end.

(** [s.split(sep)] where the separator is one character out of a class
    ([split('#')], [split('/')], [split(/[/#]/)]).  The result is never
    empty: a string without separator is its own single segment. *)
Fixpoint split_on (is_sep : ascii -> bool) (s : string) : list string :=
  match s with
  | EmptyString => [EmptyString]
  | String a r =>
      if is_sep a then EmptyString :: split_on is_sep r
      else match split_on is_sep r with
           | [] => [String a EmptyString]
           | h :: t => String a h :: t
           end
  end.

Definition split (c : ascii) : string -> list string := split_on (Ascii.eqb c).

(** [arr.pop()] read for its value: the last element, [undefined] on an
    empty array. *)
Definition pop (l : list string) : option string :=
  match rev l with
  | [] => None
  | x :: _ => Some x
  end.

(** ** White space and [trim] *)

(** One-byte white space: TAB, LF, VT, FF, CR, SPACE. *)
Definition is_ws1 (a : ascii) : bool :=
  let n := code a in
  ((9 <=? n) && (n <=? 13) || (n =? 32))%N.

(** Two-byte white space: U+00A0 (C2 A0). *)
Definition is_ws2 (a b : ascii) : bool :=
  ((code a =? 194) && (code b =? 160))%N.

(** Three-byte white space: U+1680 (E1 9A 80), U+2000..U+200A
    (E2 80 80..8A), U+2028, U+2029, U+202F (E2 80 A8, A9, AF),
    U+205F (E2 81 9F), U+3000 (E3 80 80), U+FEFF (EF BB BF). *)
Definition is_ws3 (a b c : ascii) : bool :=
  let x := code a in
  let y := code b in
  let z := code c in
  ((x =? 225) && (y =? 154) && (z =? 128)
   || (x =? 226) && (y =? 128)
        && ((128 <=? z) && (z <=? 138) || (z =? 168) || (z =? 169) || (z =? 175))
   || (x =? 226) && (y =? 129) && (z =? 159)
   || (x =? 227) && (y =? 128) && (z =? 128)
   || (x =? 239) && (y =? 187) && (z =? 191))%N.

(** Removes white space from the front, one character (of one, two or
    three bytes, as recognised by [w1], [w2], [w3]) at a time. *)
Fixpoint strip (w1 : ascii -> bool) (w2 : ascii -> ascii -> bool)
    (w3 : ascii -> ascii -> ascii -> bool) (s : string) : string :=
  match s with
  | EmptyString => EmptyString
  | String a r1 =>
      if w1 a then strip w1 w2 w3 r1
      else match r1 with
           | EmptyString => s
           | String b r2 =>
               if w2 a b then strip w1 w2 w3 r2
               else match r2 with
                    | EmptyString => s
                    | String c r3 =>
                        if w3 a b c then strip w1 w2 w3 r3 else s
                    end
           end
  end.

Fixpoint rev_append (s acc : string) : string :=
  match s with
  | EmptyString => acc
  | String a r => rev_append r (String a acc)
  end.

Definition reverse (s : string) : string := rev_append s EmptyString.

Definition trimStart (s : string) : string := strip is_ws1 is_ws2 is_ws3 s.

(** From the end the bytes of a character are met last byte first. *)
Definition flip2 (w : ascii -> ascii -> bool) (a b : ascii) : bool := w b a.
Definition flip3 (w : ascii -> ascii -> ascii -> bool) (a b c : ascii) : bool :=
  w c b a.

Definition trimEnd (s : string) : string :=
  reverse (strip is_ws1 (flip2 is_ws2) (flip3 is_ws3) (reverse s)).

Definition trim (s : string) : string := trimEnd (trimStart s).

(** A string made of characters recognised by [w1], [w2], [w3] only (the
    empty string included). *)
Inductive made_of (w1 : ascii -> bool) (w2 : ascii -> ascii -> bool)
    (w3 : ascii -> ascii -> ascii -> bool) : string -> Prop :=
| made_empty : made_of w1 w2 w3 EmptyString
| made_one a s :
    w1 a = true -> made_of w1 w2 w3 s -> made_of w1 w2 w3 (String a s)
| made_two a b s :
    w2 a b = true -> made_of w1 w2 w3 s ->
    made_of w1 w2 w3 (String a (String b s))
| made_three a b c s :
    w3 a b c = true -> made_of w1 w2 w3 s ->
    made_of w1 w2 w3 (String a (String b (String c s))).

(** A string of white space only. *)
Definition whitespace_only : string -> Prop := made_of is_ws1 is_ws2 is_ws3.

End Js.

(* ===================================================================== *)
(** * URL query strings                                                   *)
(* ===================================================================== *)

(** [URLSearchParams] (the URL standard's application/x-www-form-urlencoded
    parser and serialiser), [encodeURIComponent] and the router's
    [parsePath].  These are platform functions the component calls; they
    are written here from their standards, on UTF-8 bytes. *)
Module Url.
Import Js.

Definition in_range (lo hi : N) (c : ascii) : bool :=
  ((lo <=? code c) && (code c <=? hi))%N.

Definition is_alnum (c : ascii) : bool :=
  in_range 48 57 c || in_range 65 90 c || in_range 97 122 c.

Definition hex_digit (n : N) : ascii :=
  if (n <? 10)%N then ascii_of_N (48 + n) else ascii_of_N (55 + n).

Definition hex_value (c : ascii) : option N :=
  if in_range 48 57 c then Some (code c - 48)%N
  else if in_range 65 70 c then Some (code c - 55)%N
  else if in_range 97 102 c then Some (code c - 87)%N
  else None.

Definition percent_byte (c : ascii) : string :=
  String "%" (String (hex_digit (code c / 16))
                (String (hex_digit (code c mod 16)) EmptyString)).

(** Bytes the form serialiser leaves as they are: ASCII letters and
    digits, [*], [-], [.], [_]. *)
Definition form_safe (c : ascii) : bool :=
  is_alnum c || Ascii.eqb c "*" || Ascii.eqb c "-" || Ascii.eqb c "."
  || Ascii.eqb c "_".

Definition form_byte (c : ascii) : string :=
  if Ascii.eqb c " " then "+"
  else if form_safe c then String c EmptyString
  else percent_byte c.

Fixpoint form_encode (s : string) : string :=
  match s with
  | EmptyString => EmptyString
  | String c r => form_byte c ++ form_encode r
  end.

(** Bytes [encodeURIComponent] leaves as they are. *)
Definition component_safe (c : ascii) : bool :=
  is_alnum c || Ascii.eqb c "-" || Ascii.eqb c "_" || Ascii.eqb c "."
  || Ascii.eqb c "!" || Ascii.eqb c "~" || Ascii.eqb c "*"
  || Ascii.eqb c "'" || Ascii.eqb c "(" || Ascii.eqb c ")".

Fixpoint encodeURIComponent (s : string) : string :=
  match s with
  | EmptyString => EmptyString
  | String c r =>
      (if component_safe c then String c EmptyString else percent_byte c)
      ++ encodeURIComponent r
  end.

Fixpoint plus_to_space (s : string) : string :=
  match s with
  | EmptyString => EmptyString
  | String c r =>
      String (if Ascii.eqb c "+" then " "%char else c) (plus_to_space r)
  end.

(** Percent-decoding: [%XY] with two hexadecimal digits is one byte, any
    other [%] stands for itself. *)
Fixpoint percent_decode (s : string) : string :=
  match s with
  | EmptyString => EmptyString
  | String c t =>
      if Ascii.eqb c "%" then
        match t with
        | String h (String l r) =>
            match hex_value h, hex_value l with
            | Some x, Some y =>
                String (ascii_of_N (16 * x + y)) (percent_decode r)
            | _, _ => String c (percent_decode t)
            end
        | _ => String c (percent_decode t)
        end
      else String c (percent_decode t)
  end.

(** [s.substr(0, s.indexOf(c))], the whole of [s] without a [c]. *)
Fixpoint before (c : ascii) (s : string) : string :=
  match s with
  | EmptyString => EmptyString
  | String a r => if Ascii.eqb a c then EmptyString else String a (before c r)
  end.

(** [s.substr(s.indexOf(c) + 1)], empty without a [c]. *)
Fixpoint after (c : ascii) (s : string) : string :=
  match s with
  | EmptyString => EmptyString
  | String a r => if Ascii.eqb a c then r else after c r
  end.

(** [s.substr(s.indexOf(c))], empty without a [c]. *)
Fixpoint from (c : ascii) (s : string) : string :=
  match s with
  | EmptyString => EmptyString
  | String a r => if Ascii.eqb a c then s else from c r
  end.

(** The parameters of a query string: an ordered list of name and value,
    with repetitions. *)
Definition params := list (string * string).

Definition parse_pair (bytes : string) : string * string :=
  (percent_decode (plus_to_space (before "=" bytes)),
   percent_decode (plus_to_space (after "=" bytes))).

(** The pieces of a query string, once cut at [&]; empty pieces are
    skipped. *)
Definition parse_body (input : string) : params :=
  map parse_pair (filter truthy (split "&" input)).

(** [new URLSearchParams(init)]: a leading [?] is dropped. *)
Definition parse (init : string) : params :=
  parse_body match init with
             | String "?" r => r
             | _ => init
             end.

(** [params.get(name)]: the first value under [name], else [null]. *)
Fixpoint get (name : string) (p : params) : option string :=
  match p with
  | [] => None
  | (n, v) :: r => if String.eqb n name then Some v else get name r
  end.

(** [params.set(name, value)]: the first entry under [name] takes the
    value and later ones are removed; without one the pair is appended. *)
Fixpoint set (name value : string) (p : params) : params :=
  match p with
  | [] => [(name, value)]
  | (n, v) :: r =>
      if String.eqb n name
      then (n, value) :: filter (fun e => negb (String.eqb (fst e) name)) r
      else (n, v) :: set name value r
  end.

(** One serialised pair, [name=value]. *)
Definition pair_string (n v : string) : string :=
  form_encode n ++ "=" ++ form_encode v.

(** [params.toString()]. *)
Fixpoint serialize (p : params) : string :=
  match p with
  | [] => EmptyString
  | (n, v) :: r =>
      pair_string n v
      ++ match r with
         | [] => EmptyString
         | _ :: _ => "&" ++ serialize r
         end
  end.

(** The router's location, as [parsePath] cuts a target: the fragment
    from the first [#], then the search from the first [?]. *)
Record Location := mkLocation {
  pathname : string;
  search : string;
  hash : string
}.

Definition parsePath (to : string) : Location :=
  let path := before "#" to in
  {| pathname := before "?" path;
     search := from "?" path;
     hash := from "#" to |}.

End Url.

(* ===================================================================== *)
(** * Data model                                                          *)
(* ===================================================================== *)

Import Js.

(** [PropertyItem]; its [type] field is the constant ['property']. *)
Record PropertyItem := mkPropertyItem {
  value : string;
  label : string
}.

Inductive Direction := outgoing | incoming | predicate_only.
Inductive DisplayType := resource | property | literal.

Record Neighbor := mkNeighbor {
  direction : Direction;
  predicate : string;
  display : string;
  displayType : DisplayType;
  stepIri : option string;
  stepIsResource : option bool
}.

Record SemanticLink := mkSemanticLink {
  id : string;
  entity_id : string;
  entity_type : string;
  iri : string
}.

(** [SemanticLink & { entity_name?: string }]. *)
Record EnrichedSemanticLink := mkEnriched {
  link_of : SemanticLink;
  entity_name : option string
}.

(** What the component reads of a contract detail ([get<any>]):
    [data?.name] and [data?.info?.title]. *)
Record ContractInfo := mkContractInfo { title : option string }.
Record Contract := mkContract {
  name : option string;
  info : option ContractInfo
}.

(** The body of [post('/api/semantic-links/', ...)]. *)
Record LinkPayload := mkLinkPayload {
  payload_entity_id : string;
  payload_entity_type : string;
  payload_iri : string
}.

Record Toast := mkToast {
  toast_title : string;
  description : string;
  variant : option string
}.

(** [Partial<{ query: string; iri: string }>]: [None] is an omitted
    field. *)
Record Updates := mkUpdates {
  upd_query : option string;
  upd_iri : option string
}.

(** The [useState] cells of the component, the router location it reads
    and replaces, and the toasts it has shown. *)
Record State := mkState {
  propertySearchQuery : string;
  propertySearchResults : list PropertyItem;
  isPropertyDropdownOpen : bool;
  selectedProperty : option PropertyItem;
  propertyIri : string;
  propertyLabel : string;
  propertyNeighbors : list Neighbor;
  semanticLinks : list EnrichedSemanticLink;
  assignDialogOpen : bool;
  assignTargetType : string;
  selectedContractId : string;
  selectedSchemaName : string;
  selectedPropertyEntityId : string;
  ucAssetDialogOpen : bool;
  location : Url.Location;
  toasts : list Toast
}.

Definition setPropertySearchQuery (x : string) (s : State) : State :=
  mkState x (propertySearchResults s) (isPropertyDropdownOpen s)
    (selectedProperty s) (propertyIri s) (propertyLabel s)
    (propertyNeighbors s) (semanticLinks s) (assignDialogOpen s)
    (assignTargetType s) (selectedContractId s) (selectedSchemaName s)
    (selectedPropertyEntityId s) (ucAssetDialogOpen s) (location s) (toasts s).

Definition setPropertySearchResults (x : list PropertyItem) (s : State) : State :=
  mkState (propertySearchQuery s) x (isPropertyDropdownOpen s)
    (selectedProperty s) (propertyIri s) (propertyLabel s)
    (propertyNeighbors s) (semanticLinks s) (assignDialogOpen s)
    (assignTargetType s) (selectedContractId s) (selectedSchemaName s)
    (selectedPropertyEntityId s) (ucAssetDialogOpen s) (location s) (toasts s).

Definition setIsPropertyDropdownOpen (x : bool) (s : State) : State :=
  mkState (propertySearchQuery s) (propertySearchResults s) x
    (selectedProperty s) (propertyIri s) (propertyLabel s)
    (propertyNeighbors s) (semanticLinks s) (assignDialogOpen s)
    (assignTargetType s) (selectedContractId s) (selectedSchemaName s)
    (selectedPropertyEntityId s) (ucAssetDialogOpen s) (location s) (toasts s).

Definition setSelectedProperty (x : option PropertyItem) (s : State) : State :=
  mkState (propertySearchQuery s) (propertySearchResults s)
    (isPropertyDropdownOpen s) x (propertyIri s) (propertyLabel s)
    (propertyNeighbors s) (semanticLinks s) (assignDialogOpen s)
    (assignTargetType s) (selectedContractId s) (selectedSchemaName s)
    (selectedPropertyEntityId s) (ucAssetDialogOpen s) (location s) (toasts s).

Definition setPropertyIri (x : string) (s : State) : State :=
  mkState (propertySearchQuery s) (propertySearchResults s)
    (isPropertyDropdownOpen s) (selectedProperty s) x (propertyLabel s)
    (propertyNeighbors s) (semanticLinks s) (assignDialogOpen s)
    (assignTargetType s) (selectedContractId s) (selectedSchemaName s)
    (selectedPropertyEntityId s) (ucAssetDialogOpen s) (location s) (toasts s).

Definition setPropertyLabel (x : string) (s : State) : State :=
  mkState (propertySearchQuery s) (propertySearchResults s)
    (isPropertyDropdownOpen s) (selectedProperty s) (propertyIri s) x
    (propertyNeighbors s) (semanticLinks s) (assignDialogOpen s)
    (assignTargetType s) (selectedContractId s) (selectedSchemaName s)
    (selectedPropertyEntityId s) (ucAssetDialogOpen s) (location s) (toasts s).

Definition setPropertyNeighbors (x : list Neighbor) (s : State) : State :=
  mkState (propertySearchQuery s) (propertySearchResults s)
    (isPropertyDropdownOpen s) (selectedProperty s) (propertyIri s)
    (propertyLabel s) x (semanticLinks s) (assignDialogOpen s)
    (assignTargetType s) (selectedContractId s) (selectedSchemaName s)
    (selectedPropertyEntityId s) (ucAssetDialogOpen s) (location s) (toasts s).

Definition setSemanticLinks (x : list EnrichedSemanticLink) (s : State) : State :=
  mkState (propertySearchQuery s) (propertySearchResults s)
    (isPropertyDropdownOpen s) (selectedProperty s) (propertyIri s)
    (propertyLabel s) (propertyNeighbors s) x (assignDialogOpen s)
    (assignTargetType s) (selectedContractId s) (selectedSchemaName s)
    (selectedPropertyEntityId s) (ucAssetDialogOpen s) (location s) (toasts s).

Definition setAssignDialogOpen (x : bool) (s : State) : State :=
  mkState (propertySearchQuery s) (propertySearchResults s)
    (isPropertyDropdownOpen s) (selectedProperty s) (propertyIri s)
    (propertyLabel s) (propertyNeighbors s) (semanticLinks s) x
    (assignTargetType s) (selectedContractId s) (selectedSchemaName s)
    (selectedPropertyEntityId s) (ucAssetDialogOpen s) (location s) (toasts s).

Definition setAssignTargetType (x : string) (s : State) : State :=
  mkState (propertySearchQuery s) (propertySearchResults s)
    (isPropertyDropdownOpen s) (selectedProperty s) (propertyIri s)
    (propertyLabel s) (propertyNeighbors s) (semanticLinks s)
    (assignDialogOpen s) x (selectedContractId s) (selectedSchemaName s)
    (selectedPropertyEntityId s) (ucAssetDialogOpen s) (location s) (toasts s).

Definition setSelectedContractId (x : string) (s : State) : State :=
  mkState (propertySearchQuery s) (propertySearchResults s)
    (isPropertyDropdownOpen s) (selectedProperty s) (propertyIri s)
    (propertyLabel s) (propertyNeighbors s) (semanticLinks s)
    (assignDialogOpen s) (assignTargetType s) x (selectedSchemaName s)
    (selectedPropertyEntityId s) (ucAssetDialogOpen s) (location s) (toasts s).

Definition setSelectedSchemaName (x : string) (s : State) : State :=
  mkState (propertySearchQuery s) (propertySearchResults s)
    (isPropertyDropdownOpen s) (selectedProperty s) (propertyIri s)
    (propertyLabel s) (propertyNeighbors s) (semanticLinks s)
    (assignDialogOpen s) (assignTargetType s) (selectedContractId s) x
    (selectedPropertyEntityId s) (ucAssetDialogOpen s) (location s) (toasts s).

Definition setSelectedPropertyEntityId (x : string) (s : State) : State :=
  mkState (propertySearchQuery s) (propertySearchResults s)
    (isPropertyDropdownOpen s) (selectedProperty s) (propertyIri s)
    (propertyLabel s) (propertyNeighbors s) (semanticLinks s)
    (assignDialogOpen s) (assignTargetType s) (selectedContractId s)
    (selectedSchemaName s) x (ucAssetDialogOpen s) (location s) (toasts s).

(** [navigate(to, { replace: true })]: the location becomes the parsed
    target; no history entry is added, and none is modelled. *)
Definition navigate (to : string) (s : State) : State :=
  mkState (propertySearchQuery s) (propertySearchResults s)
    (isPropertyDropdownOpen s) (selectedProperty s) (propertyIri s)
    (propertyLabel s) (propertyNeighbors s) (semanticLinks s)
    (assignDialogOpen s) (assignTargetType s) (selectedContractId s)
    (selectedSchemaName s) (selectedPropertyEntityId s)
    (ucAssetDialogOpen s) (Url.parsePath to) (toasts s).

(** [toast({...})]: one more toast on screen. *)
Definition toast (x : Toast) (s : State) : State :=
  mkState (propertySearchQuery s) (propertySearchResults s)
    (isPropertyDropdownOpen s) (selectedProperty s) (propertyIri s)
    (propertyLabel s) (propertyNeighbors s) (semanticLinks s)
    (assignDialogOpen s) (assignTargetType s) (selectedContractId s)
    (selectedSchemaName s) (selectedPropertyEntityId s)
    (ucAssetDialogOpen s) (location s) (toasts s ++ [x]).

(** The value of a URL parameter as the component reads it:
    [new URLSearchParams(location.search).get(name)]. *)
Definition url_param (name : string) (s : State) : option string :=
  Url.get name (Url.parse (Url.search (location s))).

(* ===================================================================== *)
(** * Requests and asynchronous procedures                                *)
(* ===================================================================== *)

(** The object [useApi]'s [get] and [post] resolve to. *)
Record ApiResponse (T : Type) := mkResponse {
  data : option T;
  error : option string
}.
Arguments mkResponse {T} _ _.
Arguments data {T} _.
Arguments error {T} _.

(** How an awaited request settles: fulfilled with a response, or rejected
    with an error, of which only [message] is read. *)
Inductive settled (T : Type) : Type :=
| Fulfilled (res : ApiResponse T)
| Rejected (message : string).
Arguments Fulfilled {T} _.
Arguments Rejected {T} _.

(** The requests of the component, one constructor per type argument
    [get<T>] is used at, each with the URL it is sent to. *)
Inductive request : Type -> Type :=
| GetPropertyItems (url : string) : request (list PropertyItem)
| GetNeighbors (url : string) : request (list Neighbor)
| GetSemanticLinks (url : string) : request (list SemanticLink)
| GetAny (url : string) : request Contract
| Post (url : string) (body : LinkPayload) : request SemanticLink.

(** An asynchronous procedure: it returns, writes to the state and goes
    on, or awaits a request and goes on with what it settled to. *)
Inductive proc (A : Type) : Type :=
| Ret (a : A)
| Write (f : State -> State) (k : proc A)
| Await (T : Type) (rq : request T) (k : settled T -> proc A).
Arguments Ret {A} _.
Arguments Write {A} _ _.
Arguments Await {A T} _ _.

Fixpoint bind {A B : Type} (m : proc A) (f : A -> proc B) : proc B :=
  match m with
  | Ret a => f a
  | Write w k => Write w (bind k f)
  | Await rq k => Await rq (fun r => bind (k r) f)
  end.

Definition write (f : State -> State) : proc unit := Write f (Ret tt).
Definition await {T : Type} (rq : request T) : proc (settled T) :=
  Await rq (fun r => Ret r).

Declare Scope proc_scope.
Delimit Scope proc_scope with proc.
Bind Scope proc_scope with proc.
Notation "x <- m ;; k" := (bind m (fun x => k))
  (at level 61, m at next level, right associativity) : proc_scope.
Notation "m ;; k" := (bind m (fun _ => k))
  (at level 61, right associativity) : proc_scope.
Local Open Scope proc_scope.

(** ** Running a procedure to its end *)

(** The environment answers a request from its own state [W]. *)
Definition responder (W : Type) : Type :=
  forall T : Type, request T -> W -> settled T * W.

Inductive call : Type :=
| Call (T : Type) (rq : request T).
Arguments Call {T} _.

Record Outcome (W A : Type) := mkOutcome {
  result : A;
  final : State;
  world : W;
  calls : list call
}.
Arguments mkOutcome {W A} _ _ _ _.
Arguments result {W A} _.
Arguments final {W A} _.
Arguments world {W A} _.
Arguments calls {W A} _.

(** Runs [m] with no other handler in between: each write is applied to
    the current state, each request is answered at once. *)
Fixpoint run {W A : Type} (env : responder W) (m : proc A) (w : W)
    (s : State) : Outcome W A :=
  match m with
  | Ret a => mkOutcome a s w []
  | Write f k => run env k w (f s)
  | Await rq k =>
      let (r, w') := env _ rq w in
      let o := run env (k r) w' s in
      mkOutcome (result o) (final o) (world o) (Call rq :: calls o)
  end.

(** ** Handlers interleaved *)

(** A procedure suspended on a request. *)
Inductive task : Type :=
| Task (T : Type) (rq : request T) (k : settled T -> proc unit).
Arguments Task {T} _ _.

(** Runs the synchronous part of [m]: up to its end or its next await. *)
Fixpoint advance (m : proc unit) (s : State) : State * option task :=
  match m with
  | Ret _ => (s, None)
  | Write f k => advance k (f s)
  | Await rq k => (s, Some (Task rq k))
  end.

(** The component between two events: its state and the requests in
    flight. *)
Definition config : Type := State * list task.

Definition suspend (ts : list task) (o : option task) : list task :=
  match o with
  | Some t => ts ++ [t]
  | None => ts
  end.

(** An event handler of the current render is invoked. *)
Definition invoke (h : State -> proc unit) (c : config) : config :=
  let (s', o) := advance (h (fst c)) (fst c) in
  (s', suspend (snd c) o).

(** The [i]-th request in flight settles, to what [answer] says. *)
Definition settle (answer : forall T, request T -> settled T) (i : nat)
    (c : config) : config :=
  match nth_error (snd c) i with
  | None => c
  | Some (Task rq k) =>
      let rest := firstn i (snd c) ++ skipn (S i) (snd c) in
      let (s', o) := advance (k (answer _ rq)) (fst c) in
      (s', suspend rest o)
  end.

(* ===================================================================== *)
(** * The component                                                       *)
(* ===================================================================== *)

(** [x!]: the compiler's non-null assertion, on an array that is never
    empty. *)
Definition non_null (o : option string) : string :=
  match o with
  | Some s => s
  | None => EmptyString
  end.

(** [res.data || []]. *)
Definition data_or_nil {T : Type} (res : ApiResponse (list T)) : list T :=
  match data res with
  | Some l => l
  | None => []
  end.

(** [contractRes.data?.name || contractRes.data?.info?.title || fallback]. *)
Definition contract_title (res : ApiResponse Contract) (fallback : string)
    : string :=
  let data_name :=
    match data res with
    | Some c => name c
    | None => None
    end in
  let data_info_title :=
    match data res with
    | Some c => match info c with
                | Some i => title i
                | None => None
                end
    | None => None
    end in
  opt_or data_name (opt_or data_info_title fallback).

(** The URL [updateUrl] navigates to, from [location.search] of the render
    and the partial update. *)
Definition updateUrl_target (location_search : string) (updates : Updates)
    : string :=
  let params : Url.params := [] in
  let currentParams := Url.parse location_search in
  let currentQuery :=
    match upd_query updates with
    | Some q => q
    | None => opt_or (Url.get "query" currentParams) ""
    end in
  let currentIri :=
    match upd_iri updates with
    | Some i => i
    | None => opt_or (Url.get "iri" currentParams) ""
    end in
  let params :=
    if truthy currentQuery then Url.set "query" currentQuery params
    else params in
  let params :=
    if truthy currentIri then Url.set "iri" currentIri params else params in
  let queryString := Url.serialize params in
  if truthy queryString then "/search/properties?" ++ queryString
  else "/search/properties".

(** Every handler takes [r], the state of the render it was created in:
    what its closure reads. *)
Definition updateUrl (r : State) (updates : Updates) : proc unit :=
  write (navigate (updateUrl_target (Url.search (location r)) updates)).

(** The body of the loop of [enrichSemanticLinksWithNames]: the entry
    pushed for [link]. *)
Definition enrich_link (link : SemanticLink) : proc EnrichedSemanticLink :=
  let entityName := entity_id link in
  if String.eqb (entity_type link) "data_contract_property" then
    let parts := split "#" (entity_id link) in
    let contractId := nth_error parts 0 in
    let schemaName := nth_error parts 1 in
    let propName := nth_error parts 2 in
    if truthy (opt_or contractId "") then
      contractRes <- await (GetAny ("/api/data-contracts/" ++ opt_or contractId "")) ;;
      match contractRes with
      | Fulfilled contractRes =>
          let contractTitle :=
            contract_title contractRes (opt_or contractId "") in
          let entityName :=
            trim (contractTitle ++ "#" ++ opt_or schemaName "" ++ "."
                  ++ opt_or propName "") in
          Ret (mkEnriched link (Some entityName))
      | Rejected _ => Ret (mkEnriched link (Some (entity_id link)))
      end
    else Ret (mkEnriched link (Some entityName))
  else if String.eqb (entity_type link) "uc_column" then
    Ret (mkEnriched link (Some (entity_id link)))
  else if String.eqb (entity_type link) "data_contract" then
    contractRes <- await (GetAny ("/api/data-contracts/" ++ entity_id link)) ;;
    match contractRes with
    | Fulfilled contractRes =>
        Ret (mkEnriched link
               (Some (contract_title contractRes (entity_id link))))
    | Rejected _ => Ret (mkEnriched link (Some (entity_id link)))
    end
  else Ret (mkEnriched link (Some entityName)).

(** The loop itself, [result] being the array pushed to. *)
Fixpoint enrich_loop (links : list SemanticLink)
    (result : list EnrichedSemanticLink) : proc (list EnrichedSemanticLink) :=
  match links with
  | [] => Ret result
  | link :: rest =>
      e <- enrich_link link ;;
      enrich_loop rest (result ++ [e])
  end.

Definition enrichSemanticLinksWithNames (links : list SemanticLink)
    : proc (list EnrichedSemanticLink) :=
  enrich_loop links [].

(** The label [selectProperty] displays. *)
Definition displayLabel (property : PropertyItem) : string :=
  if negb (truthy (label property))
     || String.eqb (trim (label property)) (value property)
  then
    if includes "#" (value property)
    then non_null (pop (split "#" (value property)))
    else opt_or (pop (split "/" (value property))) (value property)
  else label property.

Definition selectProperty (r : State) (property : PropertyItem) : proc unit :=
  write (setSelectedProperty (Some property)) ;;
  write (setPropertyIri (value property)) ;;
  write (setPropertyLabel (displayLabel property)) ;;
  write (setPropertySearchQuery
           (displayLabel property ++ " - " ++ value property)) ;;
  write (setIsPropertyDropdownOpen false) ;;
  updateUrl r (mkUpdates None (Some (value property))) ;;
  res <- await (GetNeighbors
                  ("/api/semantic-models/neighbors?iri="
                   ++ Url.encodeURIComponent (value property)
                   ++ "&limit=200")) ;;
  match res with
  | Fulfilled res => write (setPropertyNeighbors (data_or_nil res))
  | Rejected _ => write (setPropertyNeighbors [])
  end ;;
  res <- await (GetSemanticLinks
                  ("/api/semantic-links/iri/"
                   ++ Url.encodeURIComponent (value property))) ;;
  match res with
  | Fulfilled res =>
      let links := data_or_nil res in
      enriched <- enrichSemanticLinksWithNames links ;;
      write (setSemanticLinks enriched)
  | Rejected _ => write (setSemanticLinks [])
  end.

(** [urlIri.split(/[/#]/)]. *)
Definition is_slash_or_hash (c : ascii) : bool :=
  Ascii.eqb c "/" || Ascii.eqb c "#".

(** The item [loadPropertyFromIri] makes up when no hit has the IRI. *)
Definition synthetic_item (urlIri : string) : PropertyItem :=
  {| value := urlIri;
     label := opt_or (pop (split_on is_slash_or_hash urlIri)) urlIri |}.

Definition loadPropertyFromIri (r : State) (urlIri : string) : proc unit :=
  res <- await (GetPropertyItems
                  ("/api/semantic-models/properties?q="
                   ++ Url.encodeURIComponent urlIri ++ "&limit=10")) ;;
  match res with
  | Fulfilled res =>
      match find (fun p => String.eqb (value p) urlIri) (data_or_nil res) with
      | Some match_ => selectProperty r match_
      | None => selectProperty r (synthetic_item urlIri)
      end
  | Rejected _ => Ret tt
  end.

(** The effect on [location.search]. *)
Definition syncFromUrl (initialQuery : string) (r : State) : proc unit :=
  let params := Url.parse (Url.search (location r)) in
  let urlQuery := Url.get "query" params in
  let urlIri := Url.get "iri" params in
  (if truthy (opt_or urlQuery "")
      && negb (String.eqb (opt_or urlQuery "") initialQuery)
   then write (setPropertySearchQuery (opt_or urlQuery ""))
   else Ret tt) ;;
  if truthy (opt_or urlIri "") then loadPropertyFromIri r (opt_or urlIri "")
  else Ret tt.

(** The debounced search: what the timer of the effect on
    [propertySearchQuery] runs 250ms after the last change. *)
Definition searchProperties (r : State) : proc unit :=
  if negb (truthy (trim (propertySearchQuery r))) then
    write (setPropertySearchResults []) ;;
    write (setIsPropertyDropdownOpen false) ;;
    updateUrl r (mkUpdates (Some "") None)
  else
    res <- await (GetPropertyItems
                    ("/api/semantic-models/properties?q="
                     ++ Url.encodeURIComponent (propertySearchQuery r)
                     ++ "&limit=50")) ;;
    match res with
    | Fulfilled res =>
        write (setPropertySearchResults (data_or_nil res)) ;;
        write (setIsPropertyDropdownOpen
                 (Nat.ltb 0 (List.length (data_or_nil res)))) ;;
        updateUrl r (mkUpdates (Some (propertySearchQuery r)) None)
    | Rejected _ =>
        write (setPropertySearchResults []) ;;
        write (setIsPropertyDropdownOpen false)
    end.

Definition clearSearch (r : State) : proc unit :=
  write (setPropertySearchQuery "") ;;
  write (setSelectedProperty None) ;;
  write (setPropertyIri "") ;;
  write (setPropertyLabel "") ;;
  write (setPropertyNeighbors []) ;;
  write (setSemanticLinks []) ;;
  write (setIsPropertyDropdownOpen false) ;;
  updateUrl r (mkUpdates (Some "") (Some "")).

(** ** The assignment cascade *)

Definition handleAssignTargetTypeChange (v : string) (r : State) : proc unit :=
  write (setAssignTargetType v) ;;
  write (setSelectedContractId "") ;;
  write (setSelectedSchemaName "") ;;
  write (setSelectedPropertyEntityId "").

(** [onValueChange] of the contract selector. *)
Definition onContractChange (v : string) (r : State) : proc unit :=
  write (setSelectedContractId v) ;;
  write (setSelectedSchemaName "") ;;
  write (setSelectedPropertyEntityId "").

(** [onValueChange] of the schema selector. *)
Definition onSchemaChange (v : string) (r : State) : proc unit :=
  write (setSelectedSchemaName v) ;;
  write (setSelectedPropertyEntityId "").

(** [onValueChange] of the property selector. *)
Definition onPropertyChange (v : string) (r : State) : proc unit :=
  write (setSelectedPropertyEntityId v).

Section Assign.

(** The translation function of [useTranslation]. *)
Variable t : string -> string.

Definition error_toast (message : string) : Toast :=
  {| toast_title := t "common:toast.error";
     description := message;
     variant := Some "destructive" |}.

Definition success_toast : Toast :=
  {| toast_title := t "common:toast.success";
     description := t "search:properties.messages.linkedSuccess";
     variant := None |}.

(** The [catch] block of [handleAssign], on an error of message
    [message]. *)
Definition assign_failed (message : string) : proc unit :=
  write (toast (error_toast
                  (or_else message
                     (t "search:properties.messages.assignFailed")))).

(** The [try] block of [handleAssign]. *)
Definition submit (r : State) (selected : PropertyItem)
    (entityId entityType : string) : proc unit :=
  res <- await (Post "/api/semantic-links/"
                  {| payload_entity_id := entityId;
                     payload_entity_type := entityType;
                     payload_iri := value selected |}) ;;
  match res with
  | Fulfilled res =>
      if truthy (opt_or (error res) "") then
        assign_failed (opt_or (error res) "")
      else
        write (toast success_toast) ;;
        write (setAssignDialogOpen false) ;;
        write (setAssignTargetType "") ;;
        write (setSelectedContractId "") ;;
        write (setSelectedSchemaName "") ;;
        write (setSelectedPropertyEntityId "") ;;
        selectProperty r selected
  | Rejected message => assign_failed message
  end.

Definition handleAssign (r : State) : proc unit :=
  match selectedProperty r with
  | None => Ret tt
  | Some selected =>
      if negb (truthy (assignTargetType r)) then Ret tt
      else
        let entityType := assignTargetType r in
        if String.eqb (assignTargetType r) "data_contract_property" then
          let entityId := selectedPropertyEntityId r in
          if negb (truthy entityId) then
            write (toast (error_toast
                            (t "search:properties.messages.selectPropertyTarget")))
          else submit r selected entityId entityType
        else if String.eqb (assignTargetType r) "uc_column" then Ret tt
        else submit r selected "" entityType
  end.

End Assign.

(** A handler of the current render, run to its end. *)
Definition fire {W : Type} (env : responder W) (h : State -> proc unit)
    (w : W) (s : State) : Outcome W unit :=
  run env (h s) w s.

(* ===================================================================== *)
(** * Vocabulary of the properties                                        *)
(* ===================================================================== *)

(** A URL parameter of value [v] as the address carries it: absent when
    [v] is empty. *)
Definition present (v : string) : option string :=
  if truthy v then Some v else None.

(** The value of a parameter that may be absent, absence read as the
    empty string. *)
Definition value_of (o : option string) : string := opt_or o "".

(** What a partial update leaves a parameter with: the value given, or
    without one the value it had. *)
Definition merged (given prior : option string) : string :=
  match given with
  | Some v => v
  | None => value_of prior
  end.

(** The same as a list of parameters, under [name]. *)
Definition entry (name v : string) : Url.params :=
  if truthy v then [(name, v)] else [].

(** The last segment of [s] cut at the characters [is_sep] accepts. *)
Definition last_segment (is_sep : ascii -> bool) (s : string) : string :=
  last (split_on is_sep s) "".

(** A property has a label of its own: one that is not empty and is not,
    white space around it apart, its IRI. *)
Definition distinct_label (p : PropertyItem) : bool :=
  truthy (label p) && negb (String.eqb (trim (label p)) (value p)).

(** The label displayed for an IRI without a label of its own: what
    follows its last [#] when it has one, else what follows its last [/],
    and the IRI itself when nothing follows that [/]. *)
Definition fallback_label (iri : string) : string :=
  if includes "#" iri then last_segment (Ascii.eqb "#") iri
  else if truthy (last_segment (Ascii.eqb "/") iri)
       then last_segment (Ascii.eqb "/") iri
       else iri.

(** The state right after the synchronous part of [selectProperty], in a
    render of location search [location_search]. *)
Definition selected_state (location_search : string) (p : PropertyItem)
    (s : State) : State :=
  navigate (updateUrl_target location_search (mkUpdates None (Some (value p))))
    (setIsPropertyDropdownOpen false
       (setPropertySearchQuery (displayLabel p ++ " - " ++ value p)
          (setPropertyLabel (displayLabel p)
             (setPropertyIri (value p)
                (setSelectedProperty (Some p) s))))).

(** The neighbors a settled neighbor request leaves in the state. *)
Definition neighbors_of (r : settled (list Neighbor)) : list Neighbor :=
  match r with
  | Fulfilled res => data_or_nil res
  | Rejected _ => []
  end.

(** The two requests of [selectProperty]. *)
Definition neighbors_request (p : PropertyItem) : request (list Neighbor) :=
  GetNeighbors ("/api/semantic-models/neighbors?iri="
                ++ Url.encodeURIComponent (value p) ++ "&limit=200").
Definition links_request (p : PropertyItem) : request (list SemanticLink) :=
  GetSemanticLinks ("/api/semantic-links/iri/"
                    ++ Url.encodeURIComponent (value p)).

(** The request of the debounced search for [q]. *)
Definition search_request (q : string) : request (list PropertyItem) :=
  GetPropertyItems ("/api/semantic-models/properties?q="
                    ++ Url.encodeURIComponent q ++ "&limit=50").

(** The request [loadPropertyFromIri] resolves an IRI with. *)
Definition resolve_request (urlIri : string) : request (list PropertyItem) :=
  GetPropertyItems ("/api/semantic-models/properties?q="
                    ++ Url.encodeURIComponent urlIri ++ "&limit=10").

(** A procedure that never writes to the state. *)
Inductive writes_nothing {A : Type} : proc A -> Prop :=
| wn_ret a : writes_nothing (Ret a)
| wn_await T (rq : request T) k :
    (forall r, writes_nothing (k r)) -> writes_nothing (Await rq k).

(** The state of the component as it mounts: the initial values of its
    [useState] cells, at a location. *)
Definition mount (initialQuery : string)
    (initialSelectedProperty : option PropertyItem) (loc : Url.Location)
    : State :=
  {| propertySearchQuery := initialQuery;
     propertySearchResults := [];
     isPropertyDropdownOpen := false;
     selectedProperty := initialSelectedProperty;
     propertyIri := "";
     propertyLabel := "";
     propertyNeighbors := [];
     semanticLinks := [];
     assignDialogOpen := false;
     assignTargetType := "";
     selectedContractId := "";
     selectedSchemaName := "";
     selectedPropertyEntityId := "";
     ucAssetDialogOpen := false;
     location := loc;
     toasts := [] |}.

(** An environment without state of its own, answering by [answer]. *)
Definition stateless (answer : forall T, request T -> settled T)
    : responder unit :=
  fun T rq _ => (answer T rq, tt).

(** The links [enrichSemanticLinksWithNames] returns when run in the
    world [w]; the state it runs in is of no consequence, it writes
    none. *)
Definition enriched {W : Type} (env : responder W)
    (links : list SemanticLink) (w : W) : list EnrichedSemanticLink :=
  result (run env (enrichSemanticLinksWithNames links) w
            (mount "" None (Url.parsePath ""))).

(** The links a settled link request leaves in the state. *)
Definition links_of {W : Type} (env : responder W)
    (r : settled (list SemanticLink)) (w : W) : list EnrichedSemanticLink :=
  match r with
  | Fulfilled res => enriched env (data_or_nil res) w
  | Rejected _ => []
  end.

(** The error a settled submission carries: the one [post] was rejected
    with, or the [error] of its response. *)
Definition submission_error (r : settled SemanticLink) : option string :=
  match r with
  | Rejected message => Some message
  | Fulfilled res =>
      if truthy (opt_or (error res) "") then Some (opt_or (error res) "")
      else None
  end.

(** The assignment dialog closed and its cascade back to nothing
    chosen. *)
Definition cascade_reset (s : State) : State :=
  setSelectedPropertyEntityId ""
    (setSelectedSchemaName ""
       (setSelectedContractId ""
          (setAssignTargetType "" (setAssignDialogOpen false s)))).

(** The body [handleAssign] posts on the contract-property path. *)
Definition assign_body (s : State) (selected : PropertyItem) : LinkPayload :=
  {| payload_entity_id := selectedPropertyEntityId s;
     payload_entity_type := assignTargetType s;
     payload_iri := value selected |}.

(** The [n]-th piece of an entity id cut at [#], empty when there is
    none. *)
Definition segment (n : nat) (entity_id : string) : string :=
  nth n (split "#" entity_id) "".

(** [<contract title>#<schema>.<property>]. *)
Definition composite_name (title schema prop : string) : string :=
  title ++ "#" ++ schema ++ "." ++ prop.

(** The name of a link against a backend that answers by [answer]:
    - of a [data_contract_property] whose entity id begins with a
      contract id: on a fetched contract, the composite name of the
      contract title (its name, else the title of its info, else the
      contract id), the schema and the property, the white space at both
      ends removed; the raw entity id when the fetch fails;
    - of a [data_contract]: on a fetched contract its title (its name,
      else the title of its info, else the entity id); the raw entity id
      when the fetch fails;
    - of anything else, a [data_contract_property] without contract id
      included: the raw entity id, nothing being fetched. *)
Definition resolved_name (answer : forall T, request T -> settled T)
    (link : SemanticLink) : string :=
  let fetch contract_id :=
    answer _ (GetAny ("/api/data-contracts/" ++ contract_id)) in
  if String.eqb (entity_type link) "data_contract_property" then
    if truthy (segment 0 (entity_id link)) then
      match fetch (segment 0 (entity_id link)) with
      | Fulfilled res =>
          trim (composite_name
                  (contract_title res (segment 0 (entity_id link)))
                  (segment 1 (entity_id link))
                  (segment 2 (entity_id link)))
      | Rejected _ => entity_id link
      end
    else entity_id link
  else if String.eqb (entity_type link) "data_contract" then
    match fetch (entity_id link) with
    | Fulfilled res => contract_title res (entity_id link)
    | Rejected _ => entity_id link
    end
  else entity_id link.

Definition named (answer : forall T, request T -> settled T)
    (link : SemanticLink) : EnrichedSemanticLink :=
  mkEnriched link (Some (resolved_name answer link)).

(** The property a deep link to [urlIri] resolves to, from the hits of
    the search: the first hit of that value, else the synthetic item. *)
Definition resolved_property (urlIri : string) (hits : list PropertyItem)
    : PropertyItem :=
  match find (fun h => String.eqb (value h) urlIri) hits with
  | Some hit => hit
  | None => synthetic_item urlIri
  end.

(** ** Sample data *)

(** A backend that is down: every request is rejected. *)
Definition rejecting : forall T, request T -> settled T :=
  fun _ _ => Rejected "Network Error".

Definition search_page : Url.Location :=
  Url.mkLocation "/search/properties" "" "".

(** A property whose IRI ends in a slash and that has no label. *)
Definition slash_property : PropertyItem :=
  {| value := "http://ex.org/onto/"; label := "" |}.

Definition customer_id : PropertyItem :=
  {| value := "https://ex.org/onto#CustomerId"; label := "CustomerId" |}.

(** A state with search results on screen and [customer_id] selected. *)
Definition showing_results : State :=
  setPropertySearchResults [customer_id]
    (setSelectedProperty (Some customer_id)
       (mount "customer" None search_page)).

(** A link to a contract property whose name ends in a space. *)
Definition trailing_space_link : SemanticLink :=
  {| id := "l1";
     entity_id := "c1#orders#total ";
     entity_type := "data_contract_property";
     iri := "https://ex.org/onto#Total" |}.

Definition total_link : SemanticLink :=
  {| id := "l2";
     entity_id := "c1#orders#total";
     entity_type := "data_contract_property";
     iri := "https://ex.org/onto#Total" |}.

(** A backend whose every contract is named [Orders] and that knows of
    nothing else. *)
Definition orders_backend : forall T, request T -> settled T :=
  fun T rq =>
    match rq in request T return settled T with
    | GetAny _ =>
        Fulfilled (mkResponse (Some (mkContract (Some "Orders") None)) None)
    | GetPropertyItems _ => Rejected "Not Found"
    | GetNeighbors _ => Rejected "Not Found"
    | GetSemanticLinks _ => Rejected "Not Found"
    | Post _ _ => Rejected "Not Found"
    end.

Definition order_id : PropertyItem :=
  {| value := "https://ex.org/onto#OrderId"; label := "OrderId" |}.

Definition fact_about (p : PropertyItem) : Neighbor :=
  {| direction := outgoing;
     predicate := "http://www.w3.org/2000/01/rdf-schema#label";
     display := label p;
     displayType := literal;
     stepIri := None;
     stepIsResource := None |}.

(** A backend that knows one fact about [customer_id] and one about
    every other property, and no link. *)
Definition ontology : forall T, request T -> settled T :=
  fun T rq =>
    match rq in request T return settled T with
    | GetNeighbors url =>
        if String.eqb url
             "/api/semantic-models/neighbors?iri=https%3A%2F%2Fex.org%2Fonto%23CustomerId&limit=200"
        then Fulfilled (mkResponse (Some [fact_about customer_id]) None)
        else Fulfilled (mkResponse (Some [fact_about order_id]) None)
    | GetSemanticLinks _ => Fulfilled (mkResponse (Some []) None)
    | GetPropertyItems _ => Fulfilled (mkResponse (Some [customer_id]) None)
    | GetAny _ => Rejected "Not Found"
    | Post _ _ => Fulfilled (mkResponse None None)
    end.

(** The assignment dialog open on [customer_id], a contract property
    chosen. *)
Definition assigning : State :=
  setSelectedPropertyEntityId "c1#orders#total"
    (setSelectedSchemaName "orders"
       (setSelectedContractId "c1"
          (setAssignTargetType "data_contract_property"
             (setAssignDialogOpen true
                (setSelectedProperty (Some customer_id)
                   (mount "" None search_page)))))).

(** A translation that shows the keys. *)
Definition keys : string -> string := fun key => key.

(* ===================================================================== *)
(** * The rest of the component                                           *)
(* ===================================================================== *)

(** ** Unity Catalog asset types (types/uc-asset.ts) *)

Module UC.

(** The members of the enum [UCAssetType]. *)
Inductive UCAssetType :=
| CATALOG | SCHEMA | TABLE | VIEW | MATERIALIZED_VIEW | STREAMING_TABLE
| FUNCTION | MODEL | VOLUME | METRIC | COLUMN.

(** The string each member is at run time. *)
Definition value_of_type (t : UCAssetType) : string :=
  match t with
  | CATALOG => "catalog"
  | SCHEMA => "schema"
  | TABLE => "table"
  | VIEW => "view"
  | MATERIALIZED_VIEW => "materialized_view"
  | STREAMING_TABLE => "streaming_table"
  | FUNCTION => "function"
  | MODEL => "model"
  | VOLUME => "volume"
  | METRIC => "metric"
  | COLUMN => "column"
  end.

Definition all_types : list UCAssetType :=
  [CATALOG; SCHEMA; TABLE; VIEW; MATERIALIZED_VIEW; STREAMING_TABLE;
   FUNCTION; MODEL; VOLUME; METRIC; COLUMN].

Definition SELECTABLE_ASSET_TYPES : list UCAssetType :=
  [TABLE; VIEW; MATERIALIZED_VIEW; STREAMING_TABLE; FUNCTION; MODEL; VOLUME;
   METRIC].

Definition ALL_ASSET_TYPES : list UCAssetType := SELECTABLE_ASSET_TYPES.

(** The object literal [TYPE_PREFIX_MAP], key by key. *)
Definition TYPE_PREFIX_MAP : list (string * UCAssetType) :=
  [("t", TABLE); ("ta", TABLE); ("tab", TABLE); ("tabl", TABLE);
   ("table", TABLE);
   ("v", VIEW); ("vi", VIEW); ("vie", VIEW); ("view", VIEW);
   ("mv", MATERIALIZED_VIEW); ("mat", MATERIALIZED_VIEW);
   ("materialized", MATERIALIZED_VIEW);
   ("materialized_view", MATERIALIZED_VIEW);
   ("st", STREAMING_TABLE); ("str", STREAMING_TABLE);
   ("stream", STREAMING_TABLE); ("streaming", STREAMING_TABLE);
   ("streaming_table", STREAMING_TABLE);
   ("f", FUNCTION); ("fu", FUNCTION); ("fun", FUNCTION); ("func", FUNCTION);
   ("function", FUNCTION);
   ("m", MODEL); ("mo", MODEL); ("mod", MODEL); ("model", MODEL);
   ("vol", VOLUME); ("volu", VOLUME); ("volum", VOLUME); ("volume", VOLUME);
   ("met", METRIC); ("metr", METRIC); ("metri", METRIC); ("metric", METRIC)].

(** [TYPE_PREFIX_MAP[key]], [undefined] for a key the object lacks. *)
Fixpoint lookup (key : string) (table : list (string * UCAssetType))
    : option UCAssetType :=
  match table with
  | [] => None
  | (k, v) :: rest => if String.eqb k key then Some v else lookup key rest
  end.

(** The functions take what a [UCAssetType] is at run time, a string. *)
Definition getAssetTypeDisplayName (type : string) : string :=
  if String.eqb type (value_of_type CATALOG) then "Catalog"
  else if String.eqb type (value_of_type SCHEMA) then "Schema"
  else if String.eqb type (value_of_type TABLE) then "Table"
  else if String.eqb type (value_of_type VIEW) then "View"
  else if String.eqb type (value_of_type MATERIALIZED_VIEW)
       then "Materialized View"
  else if String.eqb type (value_of_type STREAMING_TABLE)
       then "Streaming Table"
  else if String.eqb type (value_of_type FUNCTION) then "Function"
  else if String.eqb type (value_of_type MODEL) then "Model"
  else if String.eqb type (value_of_type VOLUME) then "Volume"
  else if String.eqb type (value_of_type METRIC) then "Metric"
  else if String.eqb type (value_of_type COLUMN) then "Column"
  else "Unknown".

Definition isContainerType (type : string) : bool :=
  String.eqb type (value_of_type CATALOG)
  || String.eqb type (value_of_type SCHEMA).

(** [SELECTABLE_ASSET_TYPES.includes(type)]. *)
Definition includes_type (types : list UCAssetType) (type : string) : bool :=
  existsb (fun t => String.eqb (value_of_type t) type) types.

Definition isSelectableType (type : string) : bool :=
  includes_type SELECTABLE_ASSET_TYPES type
  || String.eqb type (value_of_type COLUMN)
  || String.eqb type "column".

(** [UCAssetInfo]. *)
Record UCAssetInfo := mkAsset {
  catalog_name : string;
  schema_name : string;
  object_name : string;
  full_name : string;
  asset_type : UCAssetType;
  asset_description : option string;
  column_name : option string
}.

(** The [allowedTypes] the component gives the lookup dialog. *)
Definition allowedTypes : list UCAssetType :=
  [TABLE; VIEW; MATERIALIZED_VIEW].

End UC.

(** ** What the component renders *)






(** The name shown before a literal attribute:
    [predicate.split('/').pop()?.split('#').pop() || predicate]. *)
Definition attribute_name (predicate : string) : string :=
  opt_or match pop (split "/" predicate) with
         | Some tail => pop (split "#" tail)
         | None => None
         end
    predicate.

(** The text of a domain or range badge. *)
Definition badge_text (n : Neighbor) : string :=
  opt_or (pop (split "#" (predicate n))) (predicate n) ++ ": "
  ++ opt_or (pop (split "#" (display n))) (display n).

(** The clear button is rendered. *)
Definition clear_button_shown (s : State) : bool :=
  truthy (propertySearchQuery s)
  || match selectedProperty s with
     | Some _ => true
     | None => false
     end.

(** The list of results is rendered. *)
Definition dropdown_shown (s : State) : bool :=
  isPropertyDropdownOpen s
  && Nat.ltb 0 (List.length (propertySearchResults s)).

(** [onFocus] of the search box. *)
Definition onFocus (r : State) : proc unit :=
  write (setIsPropertyDropdownOpen
           (Nat.ltb 0 (List.length (propertySearchResults r)))).

(** [onChange] of the search box. *)
Definition onChange (text : string) (r : State) : proc unit :=
  write (setPropertySearchQuery text).

(** ** The contract, schema and property selectors *)

Module Detail.

(** What the selectors read of a contract detail ([get<any>]). *)
Record SchemaProperty := mkProperty { name : string }.

Record SchemaObject := mkSchema {
  schema_name : option string;
  physical_name : option string;
  properties : option (list SchemaProperty)
}.

Record ContractDetail := mkDetail {
  schema_objects : option (list SchemaObject)
}.

End Detail.

(** [a || b] where both may be [undefined]. *)
Definition or_undefined (a b : option string) : option string :=
  match a with
  | Some x => if truthy x then Some x else b
  | None => b
  end.

(** [x === selected] where [x] may be [undefined]. *)
Definition is_string (x : option string) (selected : string) : bool :=
  match x with
  | Some v => String.eqb v selected
  | None => false
  end.

(** [selectedContractDetail?.schema_objects || []]. *)
Definition schemaObjects (selectedContractDetail : option Detail.ContractDetail)
    : list Detail.SchemaObject :=
  match selectedContractDetail with
  | Some d => match Detail.schema_objects d with
              | Some l => l
              | None => []
              end
  | None => []
  end.

(** [s.name || s.physical_name]. *)
Definition schema_label (so : Detail.SchemaObject) : option string :=
  or_undefined (Detail.schema_name so) (Detail.physical_name so).

(** The [name] of each entry of [schemas]. *)
Definition schemas (selectedContractDetail : option Detail.ContractDetail)
    : list (option string) :=
  map schema_label (schemaObjects selectedContractDetail).

Definition selectedSchema (selectedContractDetail : option Detail.ContractDetail)
    (selectedSchemaName : string) : option Detail.SchemaObject :=
  find (fun so => is_string (schema_label so) selectedSchemaName)
    (schemaObjects selectedContractDetail).

(** [selectedSchema?.properties || []]. *)
Definition properties (selectedContractDetail : option Detail.ContractDetail)
    (selectedSchemaName : string) : list Detail.SchemaProperty :=
  match selectedSchema selectedContractDetail selectedSchemaName with
  | Some so => match Detail.properties so with
               | Some l => l
               | None => []
               end
  | None => []
  end.

(** The [entityId] of a property option. *)
Definition entityId (selectedContractId selectedSchemaName : string)
    (p : Detail.SchemaProperty) : string :=
  selectedContractId ++ "#" ++ selectedSchemaName ++ "#" ++ Detail.name p.

(** The values of the options of the property selector. *)
Definition property_options
    (selectedContractDetail : option Detail.ContractDetail)
    (selectedContractId selectedSchemaName : string) : list string :=
  map (entityId selectedContractId selectedSchemaName)
    (properties selectedContractDetail selectedSchemaName).

(** ** Assigning a catalog column *)

Definition setUCAssetDialogOpen (x : bool) (s : State) : State :=
  mkState (propertySearchQuery s) (propertySearchResults s)
    (isPropertyDropdownOpen s) (selectedProperty s) (propertyIri s)
    (propertyLabel s) (propertyNeighbors s) (semanticLinks s)
    (assignDialogOpen s) (assignTargetType s) (selectedContractId s)
    (selectedSchemaName s) (selectedPropertyEntityId s) x (location s)
    (toasts s).

Section UCColumn.

Variable t : string -> string.

(** The [then] of [handleUCColumnSelect]. *)
Definition column_linked (r : State) (selected : PropertyItem) : proc unit :=
  write (toast (success_toast t)) ;;
  write (setAssignDialogOpen false) ;;
  write (setUCAssetDialogOpen false) ;;
  selectProperty r selected.

Definition handleUCColumnSelect (asset : UC.UCAssetInfo) (r : State)
    : proc unit :=
  if negb (truthy (opt_or (UC.column_name asset) "")) then Ret tt
  else
    match selectedProperty r with
    | None => Ret tt
    | Some selected =>
        let entityId := UC.full_name asset in
        res <- await (Post "/api/semantic-links/"
                        {| payload_entity_id := entityId;
                           payload_entity_type := "uc_column";
                           payload_iri := value selected |}) ;;
        match res with
        | Fulfilled res =>
            if truthy (opt_or (error res) "") then
              assign_failed t (opt_or (error res) "")
            else column_linked r selected
        | Rejected message => assign_failed t message
        end
    end.

End UCColumn.

(** ** The label of a link type *)

(** [\w]: an ASCII letter, a digit or an underscore. *)
Definition is_word (c : ascii) : bool := Url.is_alnum c || Ascii.eqb c "_".

(** [c.toUpperCase()] of the one character a [\w] matches. *)
Definition toUpperCase (c : ascii) : ascii :=
  if Url.in_range 97 122 c then ascii_of_N (code c - 32) else c.

(** [s.replace(/_/g, ' ')]. *)
Fixpoint underscores_to_spaces (s : string) : string :=
  match s with
  | EmptyString => EmptyString
  | String c r =>
      String (if Ascii.eqb c "_" then " "%char else c) (underscores_to_spaces r)
  end.

(** [s.replace(/\b\w/g, (c) => c.toUpperCase())]; [boundary] tells that
    the character before is no word character, or that there is none. *)
Fixpoint capitalize_words (boundary : bool) (s : string) : string :=
  match s with
  | EmptyString => EmptyString
  | String c r =>
      String (if boundary && is_word c then toUpperCase c else c)
        (capitalize_words (negb (is_word c)) r)
  end.

Section TypeLabel.

Variable t : string -> string.

(** [typeLabel] of a link badge. *)
Definition typeLabel (link : EnrichedSemanticLink) : string :=
  let entity_type := entity_type (link_of link) in
  if String.eqb entity_type "uc_column"
  then t "search:properties.assignDialog.ucColumn"
  else if String.eqb entity_type "uc_table"
  then t "search:properties.assignDialog.ucTable"
  else capitalize_words true (underscores_to_spaces entity_type).

(** The [title] of a link badge. *)
Definition badge_title (link : EnrichedSemanticLink) : string :=
  typeLabel link ++ ": "
  ++ opt_or (entity_name link) (entity_id (link_of link)).

End TypeLabel.

(** ** Vocabulary of the further properties *)

(** The later update laid over the earlier one, field by field. *)
Definition overlay (first second : Updates) : Updates :=
  {| upd_query := match upd_query second with
                  | Some v => Some v
                  | None => upd_query first
                  end;
     upd_iri := match upd_iri second with
                | Some v => Some v
                | None => upd_iri first
                end |}.

(** A link whose enrichment fetches a contract. *)
Definition needs_fetch (link : SemanticLink) : bool :=
  String.eqb (entity_type link) "data_contract_property"
  && truthy (segment 0 (entity_id link))
  || String.eqb (entity_type link) "data_contract".

(** [is_sep] accepts a character of [s]. *)
Fixpoint has_sep (is_sep : ascii -> bool) (s : string) : bool :=
  match s with
  | EmptyString => false
  | String a r => is_sep a || has_sep is_sep r
  end.

(** The body [handleUCColumnSelect] posts. *)
Definition column_body (asset : UC.UCAssetInfo) (selected : PropertyItem)
    : LinkPayload :=
  {| payload_entity_id := UC.full_name asset;
     payload_entity_type := "uc_column";
     payload_iri := value selected |}.

(** ** Further sample data *)

Definition amount_column : UC.UCAssetInfo :=
  {| UC.catalog_name := "main";
     UC.schema_name := "sales";
     UC.object_name := "orders";
     UC.full_name := "main.sales.orders.amount";
     UC.asset_type := UC.COLUMN;
     UC.asset_description := None;
     UC.column_name := Some "amount" |}.

(** The assignment dialog open on [customer_id], the catalog column path
    chosen and the asset browser open. *)
Definition browsing_columns : State :=
  setUCAssetDialogOpen true
    (setAssignTargetType "uc_column"
       (setAssignDialogOpen true
          (setSelectedProperty (Some customer_id)
             (mount "" None search_page)))).

(** A contract with two schemas of the same name. *)
Definition orders_detail : Detail.ContractDetail :=
  {| Detail.schema_objects :=
       Some [ {| Detail.schema_name := Some "orders";
                 Detail.physical_name := None;
                 Detail.properties :=
                   Some [Detail.mkProperty "id"; Detail.mkProperty "total"] |};
              {| Detail.schema_name := None;
                 Detail.physical_name := Some "orders";
                 Detail.properties := Some [Detail.mkProperty "hidden"] |} ] |}.

Definition cascade_link (contractId schemaName : string)
    (p : Detail.SchemaProperty) : SemanticLink :=
  {| id := "new";
     entity_id := entityId contractId schemaName p;
     entity_type := "data_contract_property";
     iri := "https://ex.org/onto#Total" |}.

(* ===================================================================== *)
(** * Facts about strings and query strings                               *)
(* ===================================================================== *)

Local Open Scope string_scope.

Section StringFacts.

Lemma append_nil_r (s : string) : s ++ "" = s.
Proof. induction s as [|a s IH]; simpl; [reflexivity | now rewrite IH]. Qed.

Lemma append_assoc (a b c : string) : (a ++ b) ++ c = a ++ b ++ c.
Proof. induction a as [|x a IH]; simpl; [reflexivity | now rewrite IH]. Qed.

Lemma truthy_app_r (a b : string) : truthy b = true -> truthy (a ++ b) = true.
Proof. destruct a; simpl; auto. Qed.

Lemma includes_app (c : ascii) (a b : string) :
  includes c (a ++ b) = includes c a || includes c b.
Proof.
  induction a as [|x a IH]; simpl; [reflexivity|].
  now rewrite IH, orb_assoc.
Qed.

(** A segment without separator followed by a separator is the first
    piece of the split. *)
Lemma split_app_sep (c : ascii) (a b : string) :
  includes c a = false -> split c (a ++ String c b) = a :: split c b.
Proof.
  unfold split. induction a as [|x a IH]; simpl; intros H.
  - now rewrite Ascii.eqb_refl.
  - apply orb_false_elim in H as [Hx Ha].
    rewrite Ascii.eqb_sym, Hx, (IH Ha). reflexivity.
Qed.

Lemma split_none (c : ascii) (a : string) :
  includes c a = false -> split c a = [a].
Proof.
  unfold split. induction a as [|x a IH]; simpl; intros H; [reflexivity|].
  apply orb_false_elim in H as [Hx Ha].
  rewrite Ascii.eqb_sym, Hx, (IH Ha). reflexivity.
Qed.

Lemma before_app_sep (c : ascii) (a b : string) :
  includes c a = false -> Url.before c (a ++ String c b) = a.
Proof.
  induction a as [|x a IH]; simpl; intros H.
  - now rewrite Ascii.eqb_refl.
  - apply orb_false_elim in H as [Hx Ha]. now rewrite Hx, (IH Ha).
Qed.

Lemma after_app_sep (c : ascii) (a b : string) :
  includes c a = false -> Url.after c (a ++ String c b) = b.
Proof.
  induction a as [|x a IH]; simpl; intros H.
  - now rewrite Ascii.eqb_refl.
  - apply orb_false_elim in H as [Hx Ha]. now rewrite Hx, (IH Ha).
Qed.

Lemma before_none (c : ascii) (a : string) :
  includes c a = false -> Url.before c a = a.
Proof.
  induction a as [|x a IH]; simpl; intros H; [reflexivity|].
  apply orb_false_elim in H as [Hx Ha]. now rewrite Hx, (IH Ha).
Qed.

Lemma from_none (c : ascii) (a : string) :
  includes c a = false -> Url.from c a = "".
Proof.
  induction a as [|x a IH]; simpl; intros H; [reflexivity|].
  apply orb_false_elim in H as [Hx Ha]. now rewrite Hx, (IH Ha).
Qed.

End StringFacts.

(** ** [trim] and white space *)

Section Strip.

Variables (w1 : ascii -> bool) (w2 : ascii -> ascii -> bool)
          (w3 : ascii -> ascii -> ascii -> bool).

(** No character begins like a shorter one. *)
Hypothesis two_not_one : forall a b, w2 a b = true -> w1 a = false.
Hypothesis three_not_one : forall a b c, w3 a b c = true -> w1 a = false.
Hypothesis three_not_two : forall a b c, w3 a b c = true -> w2 a b = false.

Lemma strip_made_of (s : string) : made_of w1 w2 w3 s -> strip w1 w2 w3 s = "".
Proof.
  induction 1 as [|a s Ha _ IH|a b s Hab _ IH|a b c s Habc _ IH];
    cbn [strip].
  - reflexivity.
  - now rewrite Ha.
  - now rewrite (two_not_one _ _ Hab), Hab.
  - now rewrite (three_not_one _ _ _ Habc), (three_not_two _ _ _ Habc), Habc.
Qed.

End Strip.

Section StripAny.

Variables (w1 : ascii -> bool) (w2 : ascii -> ascii -> bool)
          (w3 : ascii -> ascii -> ascii -> bool).

(** What [strip] removes is white space, and what it leaves is left
    alone by a second pass. *)
Lemma strip_spec_bounded (n : nat) (s : string) :
  String.length s <= n ->
  (exists w, made_of w1 w2 w3 w /\ s = w ++ strip w1 w2 w3 s)
  /\ strip w1 w2 w3 (strip w1 w2 w3 s) = strip w1 w2 w3 s.
Proof.
  revert s. induction n as [|n IH]; intros s Hn.
  - destruct s; [|simpl in Hn; lia].
    split; [exists ""; split; [constructor | reflexivity] | reflexivity].
  - destruct s as [|a r1].
    { split; [exists ""; split; [constructor | reflexivity] | reflexivity]. }
    simpl in Hn.
    assert (stay : forall u, strip w1 w2 w3 u = u ->
              (exists w, made_of w1 w2 w3 w /\ u = w ++ strip w1 w2 w3 u)
              /\ strip w1 w2 w3 (strip w1 w2 w3 u) = strip w1 w2 w3 u).
    { intros u Hu. rewrite !Hu. split; [|reflexivity].
      exists ""; split; [constructor | reflexivity]. }
    destruct (w1 a) eqn:Ha.
    { destruct (IH r1 ltac:(lia)) as [(w & Hw & Er) Hi].
      cbn [strip]. rewrite Ha. split; [|exact Hi].
      exists (String a w). split; [now constructor|]. simpl. now rewrite <- Er. }
    destruct r1 as [|b r2].
    { apply stay. cbn [strip]. now rewrite Ha. }
    simpl in Hn.
    destruct (w2 a b) eqn:Hab.
    { destruct (IH r2 ltac:(lia)) as [(w & Hw & Er) Hi].
      cbn [strip]. rewrite Ha, Hab. split; [|exact Hi].
      exists (String a (String b w)). split; [now constructor|].
      simpl. now rewrite <- Er. }
    destruct r2 as [|c r3].
    { apply stay. cbn [strip]. now rewrite Ha, Hab. }
    simpl in Hn.
    destruct (w3 a b c) eqn:Habc.
    { destruct (IH r3 ltac:(lia)) as [(w & Hw & Er) Hi].
      cbn [strip]. rewrite Ha, Hab, Habc. split; [|exact Hi].
      exists (String a (String b (String c w))). split; [now constructor|].
      simpl. now rewrite <- Er. }
    apply stay. cbn [strip]. now rewrite Ha, Hab, Habc.
Qed.

Lemma strip_split (s : string) :
  exists w, made_of w1 w2 w3 w /\ s = w ++ strip w1 w2 w3 s.
Proof. exact (proj1 (strip_spec_bounded (String.length s) s (le_n _))). Qed.

Lemma strip_idempotent (s : string) :
  strip w1 w2 w3 (strip w1 w2 w3 s) = strip w1 w2 w3 s.
Proof. exact (proj2 (strip_spec_bounded (String.length s) s (le_n _))). Qed.

Lemma made_of_app (x y : string) :
  made_of w1 w2 w3 x -> made_of w1 w2 w3 y -> made_of w1 w2 w3 (x ++ y).
Proof.
  induction 1 as [|a s Ha _ IH|a b s Hab _ IH|a b c s Habc _ IH];
    intros Hy; simpl.
  - exact Hy.
  - apply made_one; auto.
  - apply made_two; auto.
  - apply made_three; auto.
Qed.

End StripAny.

Lemma rev_append_app (s acc : string) : rev_append s acc = reverse s ++ acc.
Proof.
  unfold reverse. revert acc.
  induction s as [|a s IH]; intros acc; simpl; [reflexivity|].
  rewrite (IH (String a acc)), (IH (String a "")), append_assoc. reflexivity.
Qed.

Lemma reverse_cons (a : ascii) (s : string) :
  reverse (String a s) = reverse s ++ String a "".
Proof. unfold reverse at 1. simpl. apply rev_append_app. Qed.

Lemma reverse_app (x y : string) : reverse (x ++ y) = reverse y ++ reverse x.
Proof.
  induction x as [|a x IH]; simpl.
  - now rewrite append_nil_r.
  - now rewrite !reverse_cons, IH, append_assoc.
Qed.

Lemma reverse_involutive (s : string) : reverse (reverse s) = s.
Proof.
  induction s as [|a s IH]; [reflexivity|].
  now rewrite reverse_cons, reverse_app, IH.
Qed.

Lemma reverse_empty (s : string) : reverse s = "" -> s = "".
Proof. intros H. rewrite <- (reverse_involutive s), H. reflexivity. Qed.

(** Reading a white space string backwards gives a string of the same
    characters, each read backwards. *)
Lemma made_of_reverse w1 w2 w3 (s : string) :
  made_of w1 w2 w3 s -> made_of w1 (flip2 w2) (flip3 w3) (reverse s).
Proof.
  induction 1 as [|a s Ha _ IH|a b s Hab _ IH|a b c s Habc _ IH].
  - constructor.
  - rewrite reverse_cons. apply made_of_app; [exact IH|].
    apply made_one; [exact Ha | constructor].
  - rewrite !reverse_cons, append_assoc. apply made_of_app; [exact IH|].
    simpl. apply made_two; [exact Hab | constructor].
  - rewrite !reverse_cons, !append_assoc. apply made_of_app; [exact IH|].
    simpl. apply made_three; [exact Habc | constructor].
Qed.

Ltac each_byte x := destruct x as [[] [] [] [] [] [] [] []].

Lemma ws2_not_ws1 (a b : ascii) : is_ws2 a b = true -> is_ws1 a = false.
Proof. each_byte a; intros H; reflexivity || (cbv in H; discriminate). Qed.

Lemma ws3_not_ws1 (a b c : ascii) : is_ws3 a b c = true -> is_ws1 a = false.
Proof. each_byte a; intros H; reflexivity || (cbv in H; discriminate). Qed.

Lemma ws3_not_ws2 (a b c : ascii) : is_ws3 a b c = true -> is_ws2 a b = false.
Proof. each_byte a; intros H; reflexivity || (cbv in H; discriminate). Qed.

Lemma trimStart_whitespace (s : string) : whitespace_only s -> trimStart s = "".
Proof.
  apply strip_made_of;
    [exact ws2_not_ws1 | exact ws3_not_ws1 | exact ws3_not_ws2].
Qed.

(** [trim] leaves nothing exactly of the strings of white space. *)
Lemma trim_empty_iff (s : string) : trim s = "" <-> whitespace_only s.
Proof.
  split.
  - unfold trim, trimEnd. intros H. apply reverse_empty in H.
    destruct (strip_split is_ws1 (flip2 is_ws2) (flip3 is_ws3)
                (reverse (trimStart s))) as (w & Hw & E).
    rewrite H, append_nil_r in E.
    apply made_of_reverse in Hw. rewrite <- E, reverse_involutive in Hw.
    assert (Hu : trimStart s = "").
    { unfold trimStart in *.
      rewrite <- (strip_idempotent is_ws1 is_ws2 is_ws3 s).
      apply trimStart_whitespace. exact Hw. }
    destruct (strip_split is_ws1 is_ws2 is_ws3 s) as (v & Hv & Es).
    unfold trimStart in Hu. rewrite Hu, append_nil_r in Es.
    now subst v.
  - intros H. unfold trim. now rewrite (trimStart_whitespace s H).
Qed.

Section QueryStringFacts.

(** The serialiser writes none of the characters that delimit a query
    string. *)
Lemma form_byte_delims (x : ascii) :
  includes "&" (Url.form_byte x) = false
  /\ includes "=" (Url.form_byte x) = false
  /\ includes "#" (Url.form_byte x) = false
  /\ includes "?" (Url.form_byte x) = false.
Proof. each_byte x; vm_compute; repeat split. Qed.

Lemma form_encode_delims (s : string) :
  includes "&" (Url.form_encode s) = false
  /\ includes "=" (Url.form_encode s) = false
  /\ includes "#" (Url.form_encode s) = false
  /\ includes "?" (Url.form_encode s) = false.
Proof.
  induction s as [|x s (IH1 & IH2 & IH3 & IH4)]; simpl.
  - repeat split.
  - destruct (form_byte_delims x) as (H1 & H2 & H3 & H4).
    rewrite !includes_app, H1, H2, H3, H4, IH1, IH2, IH3, IH4.
    repeat split.
Qed.

(** Decoding undoes the encoding of one byte. *)
Lemma decode_form_byte (x : ascii) (r : string) :
  Url.percent_decode (Url.plus_to_space (Url.form_byte x ++ r))
  = String x (Url.percent_decode (Url.plus_to_space r)).
Proof. each_byte x; reflexivity. Qed.

Lemma decode_form_encode (s : string) :
  Url.percent_decode (Url.plus_to_space (Url.form_encode s)) = s.
Proof.
  induction s as [|x s IH]; simpl; [reflexivity|].
  now rewrite decode_form_byte, IH.
Qed.

Lemma pair_string_no_amp (n v : string) : includes "&" (Url.pair_string n v) = false.
Proof.
  unfold Url.pair_string.
  destruct (form_encode_delims n) as (Hn & _).
  destruct (form_encode_delims v) as (Hv & _).
  now rewrite !includes_app, Hn, Hv.
Qed.

Lemma pair_string_no_hash (n v : string) : includes "#" (Url.pair_string n v) = false.
Proof.
  unfold Url.pair_string.
  destruct (form_encode_delims n) as (_ & _ & Hn & _).
  destruct (form_encode_delims v) as (_ & _ & Hv & _).
  now rewrite !includes_app, Hn, Hv.
Qed.

Lemma pair_string_truthy (n v : string) : truthy (Url.pair_string n v) = true.
Proof. unfold Url.pair_string. apply truthy_app_r. reflexivity. Qed.

Lemma parse_pair_string (n v : string) :
  Url.parse_pair (Url.pair_string n v) = (n, v).
Proof.
  unfold Url.parse_pair, Url.pair_string.
  destruct (form_encode_delims n) as (_ & Hn & _).
  change ("=" ++ Url.form_encode v) with (String "=" (Url.form_encode v)).
  rewrite (before_app_sep _ _ _ Hn), (after_app_sep _ _ _ Hn).
  now rewrite !decode_form_encode.
Qed.

Lemma serialize_cons (n v : string) (e : string * string) (r : Url.params) :
  Url.serialize ((n, v) :: e :: r)
  = Url.pair_string n v ++ String "&" (Url.serialize (e :: r)).
Proof.
  reflexivity.
Qed.

Lemma serialize_one (n v : string) :
  Url.serialize [(n, v)] = Url.pair_string n v.
Proof.
  cbn [Url.serialize]. now rewrite append_nil_r.
Qed.

Lemma parse_body_serialize (p : Url.params) : Url.parse_body (Url.serialize p) = p.
Proof.
  induction p as [|[n v] r IH]; [reflexivity|].
  destruct r as [|e r].
  - rewrite serialize_one. unfold Url.parse_body.
    rewrite (split_none _ _ (pair_string_no_amp n v)). cbn [filter].
    rewrite pair_string_truthy. cbn [map].
    now rewrite parse_pair_string.
  - rewrite serialize_cons. unfold Url.parse_body in *.
    rewrite (split_app_sep _ _ _ (pair_string_no_amp n v)). cbn [filter].
    rewrite pair_string_truthy. cbn [map].
    now rewrite parse_pair_string, IH.
Qed.

(** Reading back what [toString] wrote, behind a [?], gives the
    parameters written. *)
Lemma parse_serialize (p : Url.params) :
  Url.parse (String "?" (Url.serialize p)) = p.
Proof. apply parse_body_serialize. Qed.

Lemma serialize_no_hash (p : Url.params) : includes "#" (Url.serialize p) = false.
Proof.
  induction p as [|[n v] r IH]; [reflexivity|].
  destruct r as [|e r].
  - rewrite serialize_one. apply pair_string_no_hash.
  - rewrite serialize_cons, includes_app, pair_string_no_hash.
    simpl includes at 1. exact IH.
Qed.

Lemma serialize_truthy (e : string * string) (r : Url.params) :
  truthy (Url.serialize (e :: r)) = true.
Proof.
  destruct e as [n v]. destruct r as [|e' r].
  - rewrite serialize_one. apply pair_string_truthy.
  - rewrite serialize_cons. unfold Url.pair_string.
    rewrite !append_assoc. apply truthy_app_r. reflexivity.
Qed.

(** The location after navigating to the search page with a serialised
    query. *)
Lemma parsePath_search_page (p : Url.params) :
  Url.parsePath ("/search/properties?" ++ Url.serialize p)
  = Url.mkLocation "/search/properties" (String "?" (Url.serialize p)) "".
Proof.
  unfold Url.parsePath.
  assert (Hq : includes "#" ("/search/properties?" ++ Url.serialize p) = false).
  { rewrite includes_app, serialize_no_hash. reflexivity. }
  rewrite (before_none _ _ Hq), (from_none _ _ Hq).
  reflexivity.
Qed.

End QueryStringFacts.

(* ===================================================================== *)
(** * The URL state synchroniser                                          *)
(* ===================================================================== *)

Section UpdateUrl.

Variables (location_search : string) (updates : Updates).

(** The parameters [updateUrl] settles on. *)
Lemma updateUrl_target_eq :
  let q := merged (upd_query updates) (Url.get "query" (Url.parse location_search)) in
  let i := merged (upd_iri updates) (Url.get "iri" (Url.parse location_search)) in
  updateUrl_target location_search updates
  = if truthy q || truthy i
    then "/search/properties?" ++ Url.serialize (entry "query" q ++ entry "iri" i)%list
    else "/search/properties".
Proof.
  intros q i. unfold updateUrl_target, entry.
  change (match upd_query updates with
          | Some v => v
          | None => opt_or (Url.get "query" (Url.parse location_search)) ""
          end) with q.
  change (match upd_iri updates with
          | Some v => v
          | None => opt_or (Url.get "iri" (Url.parse location_search)) ""
          end) with i.
  destruct (truthy q), (truthy i); cbn [Url.set String.eqb app orb];
    try rewrite serialize_truthy; reflexivity.
Qed.

Lemma updateUrl_params :
  Url.parse (Url.search (Url.parsePath (updateUrl_target location_search updates)))
  = (entry "query"
       (merged (upd_query updates) (Url.get "query" (Url.parse location_search)))
     ++ entry "iri"
          (merged (upd_iri updates) (Url.get "iri" (Url.parse location_search))))%list.
Proof.
  rewrite updateUrl_target_eq. cbv zeta. unfold entry.
  destruct (truthy (merged (upd_query updates) _)),
           (truthy (merged (upd_iri updates) _)); cbn [orb app];
    try (rewrite parsePath_search_page; apply parse_serialize); reflexivity.
Qed.

Lemma updateUrl_pathname :
  Url.pathname (Url.parsePath (updateUrl_target location_search updates))
  = "/search/properties".
Proof.
  rewrite updateUrl_target_eq. cbv zeta.
  destruct (_ || _); [now rewrite parsePath_search_page | reflexivity].
Qed.

Lemma updateUrl_query :
  Url.get "query"
    (Url.parse (Url.search (Url.parsePath (updateUrl_target location_search updates))))
  = present (merged (upd_query updates) (Url.get "query" (Url.parse location_search))).
Proof.
  rewrite updateUrl_params. unfold entry, present.
  destruct (truthy (merged (upd_query updates) _)),
           (truthy (merged (upd_iri updates) _)); reflexivity.
Qed.

Lemma updateUrl_iri :
  Url.get "iri"
    (Url.parse (Url.search (Url.parsePath (updateUrl_target location_search updates))))
  = present (merged (upd_iri updates) (Url.get "iri" (Url.parse location_search))).
Proof.
  rewrite updateUrl_params. unfold entry, present.
  destruct (truthy (merged (upd_query updates) _)),
           (truthy (merged (upd_iri updates) _)); reflexivity.
Qed.

End UpdateUrl.

Lemma value_of_present (v : string) : value_of (present v) = v.
Proof. destruct v; reflexivity. Qed.

(** C1. For every [location.search] and every partial update: an omitted
    field keeps the value the parameter had (absence and the empty value
    being the same value), a field given replaces it and the empty string
    removes the parameter, and [updateUrl] navigates to
    [/search/properties?<serialised parameters>] when [query] or [iri] ends
    up non-empty, and to the bare [/search/properties] when both are
    empty. *)
Theorem updateUrl_merges_and_navigates (location_search : string)
    (updates : Updates) :
  let target := updateUrl_target location_search updates in
  let prior name := Url.get name (Url.parse location_search) in
  let now name := Url.get name (Url.parse (Url.search (Url.parsePath target))) in
  let q := merged (upd_query updates) (prior "query") in
  let i := merged (upd_iri updates) (prior "iri") in
  (upd_query updates = None -> value_of (now "query") = value_of (prior "query"))
  /\ (upd_iri updates = None -> value_of (now "iri") = value_of (prior "iri"))
  /\ (forall v, upd_query updates = Some v -> now "query" = present v)
  /\ (forall v, upd_iri updates = Some v -> now "iri" = present v)
  /\ (upd_query updates = Some "" -> now "query" = None)
  /\ (upd_iri updates = Some "" -> now "iri" = None)
  /\ now "query" = present q
  /\ now "iri" = present i
  /\ target
     = (if truthy q || truthy i
        then "/search/properties?"
             ++ Url.serialize (entry "query" q ++ entry "iri" i)%list
        else "/search/properties")
  /\ Url.pathname (Url.parsePath target) = "/search/properties".
Proof.
  cbv beta zeta.
  rewrite updateUrl_query, updateUrl_iri, !value_of_present.
  repeat split; try (apply updateUrl_target_eq || apply updateUrl_pathname);
    unfold merged; intros; match goal with H : _ = _ |- _ => now rewrite H end.
Qed.

(* ===================================================================== *)
(** * Running procedures                                                  *)
(* ===================================================================== *)

Section Run.

Context {W : Type} (env : responder W).

Lemma run_bind {A B : Type} (m : proc A) (f : A -> proc B) (w : W) (s : State) :
  run env (bind m f) w s
  = let o := run env m w s in
    let o' := run env (f (result o)) (world o) (final o) in
    mkOutcome (result o') (final o') (world o') (calls o ++ calls o')%list.
Proof.
  revert w s. induction m as [a|g k IH|T rq k IH]; intros w s; cbn [bind run].
  - cbv zeta. cbn [result final world calls app].
    now destruct (run env (f a) w s).
  - apply IH.
  - destruct (env T rq w) as [r w']. rewrite IH. reflexivity.
Qed.

End Run.

(** The parameters of the URL once [updateUrl] has navigated. *)
Lemma url_param_query_navigate (ls : string) (u : Updates) (s : State) :
  url_param "query" (navigate (updateUrl_target ls u) s)
  = present (merged (upd_query u) (Url.get "query" (Url.parse ls))).
Proof. apply updateUrl_query. Qed.

Lemma url_param_iri_navigate (ls : string) (u : Updates) (s : State) :
  url_param "iri" (navigate (updateUrl_target ls u) s)
  = present (merged (upd_iri u) (Url.get "iri" (Url.parse ls))).
Proof. apply updateUrl_iri. Qed.

(* ===================================================================== *)
(** * The debounced search                                                *)
(* ===================================================================== *)

Section Search.

Context {W : Type} (env : responder W).

(** The timer of the debounced search fires a while after the render that
    armed it: [r] is that render, whose query and location the handler
    reads, and [s] the state when it runs. *)

(** C5. For every search input that is empty or made of white space only,
    the debounced search handler empties the result list, closes the
    dropdown, removes the [query] parameter from the URL and sends no
    request. *)
Theorem search_blank_input (w : W) (r s : State) :
  whitespace_only (propertySearchQuery r) ->
  let o := run env (searchProperties r) w s in
  propertySearchResults (final o) = []
  /\ isPropertyDropdownOpen (final o) = false
  /\ url_param "query" (final o) = None
  /\ calls o = [].
Proof.
  intros Hws. apply trim_empty_iff in Hws.
  unfold searchProperties. rewrite Hws. cbn [truthy negb].
  cbn [bind write run final calls].
  repeat split.
  apply url_param_query_navigate.
Qed.

(** C10. For every search input that is not blank and whose request is
    rejected, the handler empties the result list and closes the dropdown
    and leaves the location, hence the [query] parameter, as it was; when
    the request is fulfilled the handler writes the input as the [query]
    parameter. *)
Theorem search_failure_keeps_url (w w' : W) (r s : State)
    (a : settled (list PropertyItem)) :
  ~ whitespace_only (propertySearchQuery r) ->
  env _ (search_request (propertySearchQuery r)) w = (a, w') ->
  let o := run env (searchProperties r) w s in
  match a with
  | Rejected _ =>
      propertySearchResults (final o) = []
      /\ isPropertyDropdownOpen (final o) = false
      /\ location (final o) = location s
      /\ url_param "query" (final o) = url_param "query" s
  | Fulfilled res =>
      propertySearchResults (final o) = data_or_nil res
      /\ url_param "query" (final o) = Some (propertySearchQuery r)
  end.
Proof.
  intros Hq Henv.
  assert (Ht : truthy (trim (propertySearchQuery r)) = true).
  { destruct (trim (propertySearchQuery r)) eqn:E; [|reflexivity].
    exfalso. now apply Hq, trim_empty_iff. }
  assert (Hn : truthy (propertySearchQuery r) = true).
  { destruct (propertySearchQuery r); [|reflexivity].
    exfalso. apply Hq. constructor. }
  unfold searchProperties, search_request in *. rewrite Ht.
  cbn [negb bind await run]. rewrite Henv. cbn [bind run].
  destruct a as [res|m]; cbn [bind write run final updateUrl].
  - split; [reflexivity|].
    rewrite url_param_query_navigate. cbn [merged upd_query].
    unfold present. now rewrite Hn.
  - repeat split.
Qed.

End Search.

(* ===================================================================== *)
(** * Procedures that leave the state alone                               *)
(* ===================================================================== *)

Section Enrichment.

Context {W : Type} (env : responder W).

Lemma writes_nothing_bind {A B : Type} (m : proc A) (f : A -> proc B) :
  writes_nothing m -> (forall a, writes_nothing (f a)) ->
  writes_nothing (bind m f).
Proof.
  induction 1 as [a|T rq k _ IH]; intros Hf; cbn [bind]; [apply Hf|].
  constructor. intros r. apply IH, Hf.
Qed.

(** Such a procedure ends in the state it started in, and what it returns
    and asks does not depend on that state. *)
Lemma run_writes_nothing {A : Type} (m : proc A) (w : W) (s s0 : State) :
  writes_nothing m ->
  run env m w s
  = let o := run env m w s0 in mkOutcome (result o) s (world o) (calls o).
Proof.
  intros H. revert w. induction H as [a|T rq k _ IH]; intros w; cbn [run].
  - reflexivity.
  - destruct (env T rq w) as [r w']. rewrite IH. reflexivity.
Qed.

Lemma enrich_link_writes_nothing (link : SemanticLink) :
  writes_nothing (enrich_link link).
Proof.
  unfold enrich_link.
  repeat match goal with
         | |- writes_nothing (if ?b then _ else _) => destruct b
         | |- writes_nothing (bind _ _) => apply writes_nothing_bind
         | |- writes_nothing (await _) => constructor
         | |- writes_nothing (Ret _) => constructor
         | |- forall _, _ => intros [?|?]
         end.
Qed.

Lemma enrich_loop_writes_nothing (links : list SemanticLink)
    (acc : list EnrichedSemanticLink) :
  writes_nothing (enrich_loop links acc).
Proof.
  revert acc. induction links as [|l links IH]; intros acc; cbn [enrich_loop].
  - constructor.
  - apply writes_nothing_bind; [apply enrich_link_writes_nothing|].
    intros e. apply IH.
Qed.

Lemma enrich_link_keeps_link (link : SemanticLink) (w : W) (s : State) :
  link_of (result (run env (enrich_link link) w s)) = link.
Proof.
  unfold enrich_link.
  repeat match goal with
         | |- context [if ?b then _ else _] => destruct b
         end;
    cbn [bind await run result]; try reflexivity;
    match goal with
    | |- context [env ?T ?rq ?w] => destruct (env T rq w) as [[res|m] w']
    end; reflexivity.
Qed.

Lemma enrich_loop_keeps_links (links : list SemanticLink)
    (acc : list EnrichedSemanticLink) (w : W) (s : State) :
  map link_of (result (run env (enrich_loop links acc) w s))
  = (map link_of acc ++ links)%list.
Proof.
  revert acc w s. induction links as [|l links IH]; intros acc w s;
    cbn [enrich_loop].
  - cbn [run result]. now rewrite app_nil_r.
  - rewrite run_bind. cbv zeta. cbn [result]. rewrite IH.
    rewrite map_app. cbn [map]. rewrite enrich_link_keeps_link.
    now rewrite <- app_assoc.
Qed.

End Enrichment.

Section StatelessEnrichment.

Variable answer : forall T, request T -> settled T.

Lemma opt_or_nth_error (l : list string) (n : nat) :
  opt_or (nth_error l n) "" = nth n l "".
Proof.
  revert n. induction l as [|x l IH]; intros [|n]; cbn; try reflexivity.
  - destruct x; reflexivity.
  - apply IH.
Qed.

Lemma enrich_link_stateless (link : SemanticLink) (s : State) :
  result (run (stateless answer) (enrich_link link) tt s) = named answer link.
Proof.
  unfold enrich_link, named, resolved_name, segment, composite_name.
  rewrite !opt_or_nth_error.
  destruct (String.eqb (entity_type link) "data_contract_property").
  - destruct (truthy (nth 0 (split "#" (entity_id link)) ""));
      cbn [bind await run result stateless]; [|reflexivity].
    now destruct (answer _ _).
  - destruct (String.eqb (entity_type link) "uc_column") eqn:E.
    + apply String.eqb_eq in E. rewrite E. reflexivity.
    + destruct (String.eqb (entity_type link) "data_contract");
        cbn [bind await run result stateless]; [|reflexivity].
      now destruct (answer _ _).
Qed.

Lemma enrich_loop_stateless (links : list SemanticLink)
    (acc : list EnrichedSemanticLink) (s : State) :
  result (run (stateless answer) (enrich_loop links acc) tt s)
  = (acc ++ map (named answer) links)%list.
Proof.
  revert acc s. induction links as [|l links IH]; intros acc s;
    cbn [enrich_loop].
  - cbn [run result map]. now rewrite app_nil_r.
  - rewrite run_bind. cbv zeta. cbn [result].
    destruct (world _). rewrite IH, enrich_link_stateless.
    cbn [map]. now rewrite <- app_assoc.
Qed.

End StatelessEnrichment.

(** C2 (amended). For every list of raw links, the enriched list has the
    links of the input, as many and in the same order, each with a name;
    against a backend that answers by [answer] the names are those of
    [resolved_name], link by link, a failed fetch naming its own link by
    its raw entity id and no other.  In particular a
    [data_contract_property] of entity id [c1#orders#total] is named
    [<title of c1>#orders.total], white space at both ends removed, and
    [c1#orders#total] when the fetch of [c1] fails. *)
Theorem enrichment_names_each_link (links : list SemanticLink) :
  (forall (W : Type) (env : responder W) (w : W) (s : State),
     map link_of (result (run env (enrichSemanticLinksWithNames links) w s))
     = links)
  /\ (forall (answer : forall T, request T -> settled T) (s : State),
        result (run (stateless answer) (enrichSemanticLinksWithNames links) tt s)
        = map (named answer) links)
  /\ (forall (answer : forall T, request T -> settled T) (l : SemanticLink),
        entity_type l = "data_contract_property" ->
        entity_id l = "c1#orders#total" ->
        resolved_name answer l
        = match answer _ (GetAny "/api/data-contracts/c1") with
          | Fulfilled res => trim (contract_title res "c1" ++ "#orders.total")
          | Rejected _ => "c1#orders#total"
          end).
Proof.
  repeat split.
  - intros W env w s. unfold enrichSemanticLinksWithNames.
    now rewrite enrich_loop_keeps_links.
  - intros answer s. unfold enrichSemanticLinksWithNames.
    now rewrite enrich_loop_stateless.
  - intros answer l Ht Hi. unfold resolved_name. rewrite Ht, Hi. reflexivity.
Qed.

(** C2, as stated, fails: the name is trimmed, so a property whose name
    ends in a space is not named [<contract title>#<schema>.<property>]. *)
Lemma enrichment_trims_the_name :
  let o := run (stateless orders_backend)
             (enrichSemanticLinksWithNames [trailing_space_link]) tt
             (mount "" None search_page) in
  split "#" (entity_id trailing_space_link) = ["c1"; "orders"; "total "]
  /\ map entity_name (result o) = [Some "Orders#orders.total"]
  /\ map entity_name (result o)
     <> [Some (composite_name "Orders" "orders" "total ")].
Proof. repeat split. vm_compute. discriminate. Qed.

(* ===================================================================== *)
(** * Selecting a property                                                *)
(* ===================================================================== *)

Section Select.

Context {W : Type} (env : responder W).

(** The state [selectProperty] ends in, run without interruption: the
    state after its synchronous part, with the neighbors and the links
    the two requests settled to. *)
Lemma selectProperty_final (r s : State) (p : PropertyItem) (w w1 w2 : W)
    (r1 : settled (list Neighbor)) (r2 : settled (list SemanticLink)) :
  env _ (neighbors_request p) w = (r1, w1) ->
  env _ (links_request p) w1 = (r2, w2) ->
  final (run env (selectProperty r p) w s)
  = setSemanticLinks (links_of env r2 w2)
      (setPropertyNeighbors (neighbors_of r1)
         (selected_state (Url.search (location r)) p s)).
Proof.
  intros H1 H2. unfold selectProperty, neighbors_request, links_request in *.
  cbn [bind write await run updateUrl].
  rewrite H1. cbn [bind run final].
  destruct r1 as [res1|m1]; cbn [bind write run neighbors_of];
    rewrite H2; cbn [bind run final];
    destruct r2 as [res2|m2]; cbn [bind write run links_of final];
    try reflexivity.
  all: rewrite run_bind; cbv zeta; cbn [final write run].
  all: rewrite (run_writes_nothing env _ w2 _ (mount "" None (Url.parsePath ""))
                  (enrich_loop_writes_nothing (data_or_nil res2) []));
    reflexivity.
Qed.

Lemma split_on_not_nil (is_sep : ascii -> bool) (v : string) :
  split_on is_sep v <> [].
Proof.
  destruct v as [|a v]; cbn [split_on]; [discriminate|].
  destruct (is_sep a); [discriminate|].
  destruct (split_on is_sep v); discriminate.
Qed.

Lemma pop_last (l : list string) : l <> [] -> pop l = Some (last l "").
Proof.
  destruct l as [|x l'] using rev_ind; [congruence|]. intros _.
  unfold pop. now rewrite rev_unit, last_last.
Qed.

Lemma pop_split_on (is_sep : ascii -> bool) (v : string) :
  pop (split_on is_sep v) = Some (last_segment is_sep v).
Proof. apply pop_last, split_on_not_nil. Qed.

(** The label displayed is the label of the property when it has one of
    its own, and the fallback for its IRI otherwise. *)
Lemma displayLabel_spec (p : PropertyItem) :
  displayLabel p
  = if distinct_label p then label p else fallback_label (value p).
Proof.
  unfold displayLabel, distinct_label, fallback_label, split.
  rewrite !pop_split_on. cbn [non_null opt_or]. unfold or_else.
  destruct (truthy (label p)); cbn [negb orb andb]; [|reflexivity].
  destruct (String.eqb (trim (label p)) (value p)); reflexivity.
Qed.

(** C9 (amended). For every property passed to [selectProperty]: the selected
    property and its IRI are set; the label displayed is the label of the
    property when it has one of its own, and otherwise what follows the
    last [#] of the IRI or, in an IRI without [#], what follows its last
    [/], the whole IRI standing in when nothing follows that [/]; the
    search box reads [<label> - <iri>]; the dropdown is closed; the [iri]
    parameter of the URL is the value of the property, and is removed when
    that value is empty, while the [query] parameter keeps its value. *)
Theorem selectProperty_effects (w : W) (s : State) (p : PropertyItem) :
  let o := fire env (fun r => selectProperty r p) w s in
  selectedProperty (final o) = Some p
  /\ propertyIri (final o) = value p
  /\ propertyLabel (final o)
     = (if distinct_label p then label p else fallback_label (value p))
  /\ propertySearchQuery (final o)
     = propertyLabel (final o) ++ " - " ++ value p
  /\ isPropertyDropdownOpen (final o) = false
  /\ url_param "iri" (final o) = present (value p)
  /\ url_param "query" (final o) = present (value_of (url_param "query" s)).
Proof.
  unfold fire.
  destruct (env _ (neighbors_request p) w) as [r1 w1] eqn:H1.
  destruct (env _ (links_request p) w1) as [r2 w2] eqn:H2.
  cbv zeta. rewrite (selectProperty_final s s p w w1 w2 r1 r2 H1 H2).
  cbn [selectedProperty propertyIri propertyLabel propertySearchQuery
       isPropertyDropdownOpen setSemanticLinks setPropertyNeighbors
       selected_state navigate setIsPropertyDropdownOpen
       setPropertySearchQuery setPropertyLabel setPropertyIri
       setSelectedProperty].
  rewrite <- displayLabel_spec.
  repeat split.
  - apply (url_param_iri_navigate (Url.search (location s))
             (mkUpdates None (Some (value p)))).
  - apply (url_param_query_navigate (Url.search (location s))
             (mkUpdates None (Some (value p)))).
Qed.

End Select.

(** C9, as stated, fails: for an IRI that ends in a slash and has no
    label, the last segment is empty, and the label displayed is the whole
    IRI. *)
Lemma selectProperty_label_not_last_segment :
  let s := mount "" None search_page in
  let o := fire (stateless rejecting)
             (fun r => selectProperty r slash_property) tt s in
  distinct_label slash_property = false
  /\ last_segment (Ascii.eqb "/") (value slash_property) = ""
  /\ last_segment is_slash_or_hash (value slash_property) = ""
  /\ propertyLabel (final o) = "http://ex.org/onto/"
  /\ propertyLabel (final o)
     <> last_segment is_slash_or_hash (value slash_property).
Proof. repeat split. vm_compute. discriminate. Qed.

(* ===================================================================== *)
(** * Clearing the search                                                 *)
(* ===================================================================== *)

Section Clear.

Context {W : Type} (env : responder W).

(** C8 (amended). Clearing the search always removes both the [query] and
    the [iri] parameter from the URL and leaves the component with an
    empty search query, no selected property, an empty property IRI, no
    neighbors, no links and a closed dropdown, without a request; the
    result list it leaves as it was, and it is the debounced search
    handler, run on the query now empty, that empties it. *)
Theorem clearSearch_effects (w : W) (s : State) :
  let o := fire env clearSearch w s in
  url_param "query" (final o) = None
  /\ url_param "iri" (final o) = None
  /\ location (final o) = search_page
  /\ propertySearchQuery (final o) = ""
  /\ selectedProperty (final o) = None
  /\ propertyIri (final o) = ""
  /\ propertyNeighbors (final o) = []
  /\ semanticLinks (final o) = []
  /\ isPropertyDropdownOpen (final o) = false
  /\ calls o = []
  /\ propertySearchResults (final o) = propertySearchResults s
  /\ (let o' := fire env searchProperties (world o) (final o) in
      propertySearchResults (final o') = [] /\ calls o' = []).
Proof. repeat split. Qed.

End Clear.

(** C8, as stated, fails: results on screen before the search is cleared
    are still in the state once [clearSearch] has run. *)
Lemma clearSearch_keeps_results :
  let o := fire (stateless rejecting) clearSearch tt showing_results in
  propertySearchResults showing_results = [customer_id]
  /\ propertySearchResults (final o) = [customer_id]
  /\ propertySearchResults (final o) <> [].
Proof. repeat split. discriminate. Qed.

(* ===================================================================== *)
(** * The assignment cascade                                              *)
(* ===================================================================== *)

Section Cascade.

Context {W : Type} (env : responder W).

(** C7. In the cascade a change upstream resets what is downstream: a new
    target type clears the contract, the schema and the property chosen; a
    new contract clears the schema and the property; a new schema clears
    the property. *)
Theorem cascade_resets_downstream (w : W) (s : State) (v : string) :
  let a := final (fire env (handleAssignTargetTypeChange v) w s) in
  let b := final (fire env (onContractChange v) w s) in
  let c := final (fire env (onSchemaChange v) w s) in
  (assignTargetType a = v
   /\ selectedContractId a = ""
   /\ selectedSchemaName a = ""
   /\ selectedPropertyEntityId a = "")
  /\ (assignTargetType b = assignTargetType s
      /\ selectedContractId b = v
      /\ selectedSchemaName b = ""
      /\ selectedPropertyEntityId b = "")
  /\ (assignTargetType c = assignTargetType s
      /\ selectedContractId c = selectedContractId s
      /\ selectedSchemaName c = v
      /\ selectedPropertyEntityId c = "").
Proof. repeat split. Qed.

Variable t : string -> string.

(** C6. On the contract-property path, with a property selected: without
    a property entity id an error is shown and nothing is sent; with one,
    [{entity_id, entity_type, iri: selectedProperty.value}] is posted, and
    then on success the dialog is closed, the cascade is reset and the
    property is selected again, which fetches its neighbors and links
    anew; on failure the message of the error is shown, with a fallback
    for an empty one, and the dialog and the cascade are as they were. *)
Theorem handleAssign_submits (w : W) (s : State) (p : PropertyItem) :
  selectedProperty s = Some p ->
  assignTargetType s = "data_contract_property" ->
  let o := fire env (handleAssign t) w s in
  let sent := Post "/api/semantic-links/" (assign_body s p) in
  (selectedPropertyEntityId s = "" ->
   calls o = []
   /\ final o
      = toast (error_toast t (t "search:properties.messages.selectPropertyTarget")) s)
  /\ (selectedPropertyEntityId s <> "" ->
      forall (r : settled SemanticLink) (w' : W),
        env _ sent w = (r, w') ->
        match submission_error r with
        | Some message =>
            calls o = [Call sent]
            /\ final o
               = toast (error_toast t
                          (or_else message
                             (t "search:properties.messages.assignFailed"))) s
            /\ assignDialogOpen (final o) = assignDialogOpen s
            /\ assignTargetType (final o) = assignTargetType s
            /\ selectedContractId (final o) = selectedContractId s
            /\ selectedSchemaName (final o) = selectedSchemaName s
            /\ selectedPropertyEntityId (final o) = selectedPropertyEntityId s
        | None =>
            let again :=
              run env (selectProperty s p) w'
                (cascade_reset (toast (success_toast t) s)) in
            calls o = (Call sent :: calls again)%list
            /\ final o = final again
            /\ assignDialogOpen (final o) = false
            /\ assignTargetType (final o) = ""
            /\ selectedContractId (final o) = ""
            /\ selectedSchemaName (final o) = ""
            /\ selectedPropertyEntityId (final o) = ""
            /\ selectedProperty (final o) = Some p
        end).
Proof.
  intros Hp Ht. unfold fire, handleAssign. rewrite Hp, Ht.
  cbn [truthy negb String.eqb Ascii.eqb Bool.eqb].
  split.
  - intros He. rewrite He. cbn [truthy negb]. split; reflexivity.
  - intros He r w' Henv.
    destruct (selectedPropertyEntityId s) as [|c e] eqn:Hid; [congruence|].
    cbn [truthy negb]. unfold submit, assign_body in *.
    rewrite Ht, Hid in Henv.
    cbn [bind await run]. rewrite Henv.
    assert (Hfail : forall m,
      run env (assign_failed t m) w' s
      = mkOutcome tt
          (toast (error_toast t
                    (or_else m (t "search:properties.messages.assignFailed"))) s)
          w' []) by reflexivity.
    destruct r as [res|m]; cbn [submission_error bind run].
    + destruct (truthy (opt_or (error res) "")).
      * rewrite Hfail. cbn [result final world calls].
        rewrite Ht, Hid. repeat split; (exact Ht || exact Hid).
      * cbn [bind write run result final world calls]. cbv zeta.
        unfold cascade_reset. rewrite Ht, Hid.
        destruct (env _ (neighbors_request p) w') as [r1 w1] eqn:H1.
        destruct (env _ (links_request p) w1) as [r2 w2] eqn:H2.
        rewrite (selectProperty_final env s _ p w' w1 w2 r1 r2 H1 H2).
        repeat split.
    + rewrite Hfail. cbn [result final world calls].
      rewrite Ht, Hid. repeat split; (exact Ht || exact Hid).
Qed.

End Cascade.

(* ===================================================================== *)
(** * Deep links                                                          *)
(* ===================================================================== *)

Section DeepLink.

Context {W : Type} (env : responder W).

Lemma selectProperty_selected (r s : State) (p : PropertyItem) (w : W) :
  selectedProperty (final (run env (selectProperty r p) w s)) = Some p.
Proof.
  destruct (env _ (neighbors_request p) w) as [r1 w1] eqn:H1.
  destruct (env _ (links_request p) w1) as [r2 w2] eqn:H2.
  now rewrite (selectProperty_final env r s p w w1 w2 r1 r2 H1 H2).
Qed.

Lemma selectProperty_url_iri (s : State) (p : PropertyItem) (w : W) :
  url_param "iri" (final (run env (selectProperty s p) w s)) = present (value p).
Proof.
  destruct (env _ (neighbors_request p) w) as [r1 w1] eqn:H1.
  destruct (env _ (links_request p) w1) as [r2 w2] eqn:H2.
  rewrite (selectProperty_final env s s p w w1 w2 r1 r2 H1 H2).
  apply (url_param_iri_navigate (Url.search (location s))
           (mkUpdates None (Some (value p)))).
Qed.

(** What [loadPropertyFromIri] selects. *)
Lemma loadPropertyFromIri_selected (r s : State) (urlIri : string) (w w' : W)
    (a : settled (list PropertyItem)) :
  env _ (resolve_request urlIri) w = (a, w') ->
  selectedProperty (final (run env (loadPropertyFromIri r urlIri) w s))
  = match a with
    | Fulfilled res => Some (resolved_property urlIri (data_or_nil res))
    | Rejected _ => selectedProperty s
    end.
Proof.
  intros H. unfold loadPropertyFromIri, resolve_request, resolved_property in *.
  cbn [bind await run]. rewrite H. cbn [bind run final].
  destruct a as [res|m]; [|reflexivity].
  destruct (find _ (data_or_nil res)); apply selectProperty_selected.
Qed.

Lemma resolved_property_value (urlIri : string) (hits : list PropertyItem) :
  value (resolved_property urlIri hits) = urlIri.
Proof.
  unfold resolved_property.
  destruct (find _ hits) as [hit|] eqn:E; [|reflexivity].
  apply find_some in E as [_ E]. now apply String.eqb_eq.
Qed.

Lemma synthetic_label (urlIri : string) :
  label (synthetic_item urlIri)
  = if truthy (last_segment is_slash_or_hash urlIri)
    then last_segment is_slash_or_hash urlIri
    else urlIri.
Proof.
  unfold synthetic_item. cbn [label]. now rewrite pop_split_on.
Qed.

(** C3 (amended). For every property of non-empty value, selecting it
    writes the value as the [iri] parameter of the URL; and the component
    loaded at that URL, when its search request is fulfilled, selects a
    property of that value: the first hit of the response with that value
    when there is one, otherwise a synthetic item of that value whose label
    is the last path or fragment segment of the IRI, or the whole IRI when
    that segment is empty.  When the search request is rejected the
    selection is left as it was. *)
Theorem select_then_reload (w w1 w1' : W) (s s' : State) (p : PropertyItem)
    (initialQuery : string) (a : settled (list PropertyItem)) :
  value p <> "" ->
  location s' = location (final (fire env (fun r => selectProperty r p) w s)) ->
  env _ (resolve_request (value p)) w1 = (a, w1') ->
  let s1 := final (fire env (fun r => selectProperty r p) w s) in
  let o := fire env (syncFromUrl initialQuery) w1 s' in
  url_param "iri" s1 = Some (value p)
  /\ match a with
     | Fulfilled res =>
         let hits := data_or_nil res in
         let found := resolved_property (value p) hits in
         selectedProperty (final o) = Some found
         /\ value found = value p
         /\ match find (fun h => String.eqb (value h) (value p)) hits with
            | Some hit => found = hit
            | None =>
                found = synthetic_item (value p)
                /\ label found
                   = (if truthy (last_segment is_slash_or_hash (value p))
                      then last_segment is_slash_or_hash (value p)
                      else value p)
            end
     | Rejected _ => selectedProperty (final o) = selectedProperty s'
     end.
Proof.
  intros Hv Hloc Henv. cbv zeta.
  assert (Hp : present (value p) = Some (value p)).
  { unfold present. destruct (value p); [congruence | reflexivity]. }
  assert (Hiri : url_param "iri" s' = Some (value p)).
  { unfold url_param. rewrite Hloc. unfold fire.
    rewrite <- Hp. apply selectProperty_url_iri. }
  split.
  { unfold fire. rewrite <- Hp. apply selectProperty_url_iri. }
  unfold fire, syncFromUrl. unfold url_param in Hiri. rewrite Hiri.
  assert (Ho : opt_or (Some (value p)) "" = value p).
  { cbn [opt_or]. unfold or_else. destruct (value p); reflexivity. }
  assert (Ht : truthy (value p) = true).
  { destruct (value p); [congruence | reflexivity]. }
  rewrite Ho, Ht. rewrite run_bind. cbv zeta. cbn [final].
  set (first := run env _ w1 s').
  assert (Hw : world first = w1).
  { subst first. destruct (_ && _); reflexivity. }
  assert (Hs : selectedProperty (final first) = selectedProperty s').
  { subst first. destruct (_ && _); reflexivity. }
  rewrite Hw.
  rewrite (loadPropertyFromIri_selected s' (final first) (value p) w1 w1' a Henv).
  destruct a as [res|m]; [|exact Hs].
  split; [reflexivity|]. split; [apply resolved_property_value|].
  unfold resolved_property.
  destruct (find _ (data_or_nil res)); [reflexivity|].
  split; [reflexivity | apply synthetic_label].
Qed.

End DeepLink.

(** C3, as stated, fails: when the search request of the load is
    rejected no property is selected, and the synthetic item of an IRI
    that ends in a slash is labelled by the whole IRI, its last segment
    being empty. *)
Lemma deep_link_not_always_resolved :
  let s := mount "" None search_page in
  let s1 := final (fire (stateless rejecting)
                     (fun r => selectProperty r customer_id) tt s) in
  let o := fire (stateless rejecting) (syncFromUrl "")
             tt (mount "" None (location s1)) in
  url_param "iri" s1 = Some (value customer_id)
  /\ selectedProperty (final o) = None
  /\ last_segment is_slash_or_hash (value slash_property) = ""
  /\ label (synthetic_item (value slash_property)) = "http://ex.org/onto/".
Proof. repeat split. Qed.

(* ===================================================================== *)
(** * Selections that overlap                                             *)
(* ===================================================================== *)

Section Overlap.

Context {W : Type} (env : responder W).

(** Running a procedure to its end is running its synchronous part and
    then, the request it is suspended on being answered at once, the
    rest. *)
Lemma run_advance (m : proc unit) (w : W) (s : State) :
  run env m w s
  = match advance m s with
    | (s', None) => mkOutcome tt s' w []
    | (s', Some (Task rq k)) =>
        let (r, w') := env _ rq w in
        let o := run env (k r) w' s' in
        mkOutcome (result o) (final o) (world o) (Call rq :: calls o)
    end.
Proof.
  revert w s. induction m as [[]|f k IH|T rq k _]; intros w s;
    cbn [run advance].
  - reflexivity.
  - apply IH.
  - reflexivity.
Qed.

(** The synchronous part of [selectProperty] ends suspended on the
    neighbor request, in the state [selected_state]. *)
Lemma advance_selectProperty (r s : State) (p : PropertyItem) :
  exists k,
    advance (selectProperty r p) s
    = (selected_state (Url.search (location r)) p s,
       Some (Task (neighbors_request p) k)).
Proof. eexists. reflexivity. Qed.

(** C4 (amended). One property at most is selected, and selecting a
    property makes it the selected one at once; the neighbors and the links
    of the property selected before stay in the state while the new
    requests are in flight; and a selection that runs to its end with no
    other response in between leaves the neighbors and the links its own
    two requests settled to, whatever the state held before: the lists are
    replaced, not merged. *)
Theorem selection_replaces_on_arrival (w w1 w2 : W) (s : State)
    (ts : list task) (p : PropertyItem)
    (r1 : settled (list Neighbor)) (r2 : settled (list SemanticLink)) :
  env _ (neighbors_request p) w = (r1, w1) ->
  env _ (links_request p) w1 = (r2, w2) ->
  let c := invoke (fun r => selectProperty r p) (s, ts) in
  let o := fire env (fun r => selectProperty r p) w s in
  (selectedProperty (fst c) = Some p
   /\ propertyNeighbors (fst c) = propertyNeighbors s
   /\ semanticLinks (fst c) = semanticLinks s
   /\ exists k, snd c = (ts ++ [Task (neighbors_request p) k])%list)
  /\ (selectedProperty (final o) = Some p
      /\ propertyNeighbors (final o) = neighbors_of r1
      /\ semanticLinks (final o) = links_of env r2 w2).
Proof.
  intros H1 H2. cbv zeta. split.
  - unfold invoke. cbn [fst snd].
    destruct (advance_selectProperty s s p) as [k Hk]. rewrite Hk.
    cbn [fst snd suspend]. repeat split. now exists k.
  - unfold fire. rewrite (selectProperty_final env s s p w w1 w2 r1 r2 H1 H2).
    repeat split.
Qed.

End Overlap.

(** C4, as stated, fails.  With [customer_id] selected and its fact on
    screen, selecting [order_id] leaves that fact in the state while the
    request for the new facts is in flight.  And when [customer_id] then
    [order_id] are selected in turn and the responses for [customer_id]
    arrive last, the state ends with [order_id] selected and the fact
    about [customer_id]. *)
Lemma stale_neighbors_survive :
  let select p := fun r => selectProperty r p in
  let s0 := mount "" None search_page in
  let s1 := final (fire (stateless ontology) (select customer_id) tt s0) in
  let c := invoke (select order_id) (s1, []) in
  let late :=
    settle ontology 0
      (settle ontology 0
         (settle ontology 1
            (settle ontology 1
               (invoke (select order_id)
                  (invoke (select customer_id) (s0, [])))))) in
  let mid :=
    settle ontology 1
      (settle ontology 1
         (invoke (select order_id)
            (invoke (select customer_id) (s0, [])))) in
  (selectedProperty s1 = Some customer_id
   /\ propertyNeighbors s1 = [fact_about customer_id]
   /\ selectedProperty (fst c) = Some order_id
   /\ propertyNeighbors (fst c) = [fact_about customer_id]
   /\ propertyNeighbors (fst c) <> []
   /\ List.length (snd c) = 1)
  /\ (propertyNeighbors (fst mid) = [fact_about order_id]
      /\ List.length (snd mid) = 1
      /\ selectedProperty (fst late) = Some order_id
      /\ propertyNeighbors (fst late) = [fact_about customer_id]
      /\ snd late = []).
Proof. vm_compute. repeat split. discriminate. Qed.

(* ===================================================================== *)
(** * The properties at work on sample data                               *)
(* ===================================================================== *)

(** C1 at work: the query is removed from a URL that has both parameters,
    the IRI stays. *)
Lemma updateUrl_merges_and_navigates_witness :
  let before := "?query=customer&iri=https%3A%2F%2Fex.org%2Fonto%23CustomerId" in
  let target := updateUrl_target before (mkUpdates (Some "") None) in
  let now name := Url.get name (Url.parse (Url.search (Url.parsePath target))) in
  value_of (now "iri") = "https://ex.org/onto#CustomerId"
  /\ now "query" = None
  /\ target = "/search/properties?iri=https%3A%2F%2Fex.org%2Fonto%23CustomerId".
Proof.
  destruct (updateUrl_merges_and_navigates
              "?query=customer&iri=https%3A%2F%2Fex.org%2Fonto%23CustomerId"
              (mkUpdates (Some "") None))
    as (_ & Hiri & _ & _ & Hquery & _).
  split; [exact (Hiri eq_refl)|].
  split; [exact (Hquery eq_refl)|].
  reflexivity.
Defined.

(** C2 at work on the link of the specification. *)
Lemma enrichment_names_each_link_witness :
  entity_type total_link = "data_contract_property"
  /\ entity_id total_link = "c1#orders#total"
  /\ resolved_name orders_backend total_link = "Orders#orders.total"
  /\ resolved_name rejecting total_link = "c1#orders#total".
Proof.
  destruct (enrichment_names_each_link [total_link]) as (_ & _ & H).
  split; [reflexivity|]. split; [reflexivity|].
  split.
  - exact (H orders_backend total_link eq_refl eq_refl).
  - exact (H rejecting total_link eq_refl eq_refl).
Defined.

(** C3 at work: [customer_id] is selected, the page is loaded anew at the
    URL, and the search finds it again. *)
Lemma select_then_reload_witness :
  let s := mount "" None search_page in
  let s1 := final (fire (stateless ontology)
                     (fun r => selectProperty r customer_id) tt s) in
  let o := fire (stateless ontology) (syncFromUrl "") tt
             (mount "" None (location s1)) in
  value customer_id <> ""
  /\ Url.search (location s1) = "?iri=https%3A%2F%2Fex.org%2Fonto%23CustomerId"
  /\ url_param "iri" s1 = Some (value customer_id)
  /\ selectedProperty (final o) = Some customer_id.
Proof.
  assert (Hv : value customer_id <> "") by discriminate.
  pose proof (select_then_reload (stateless ontology) tt tt tt
                (mount "" None search_page)
                (mount "" None
                   (location
                      (final (fire (stateless ontology)
                                (fun r => selectProperty r customer_id) tt
                                (mount "" None search_page)))))
                customer_id ""
                (Fulfilled (mkResponse (Some [customer_id]) None))
                Hv eq_refl eq_refl) as (Hiri & Hsel & _).
  split; [exact Hv|]. split; [reflexivity|]. split; [exact Hiri | exact Hsel].
Defined.

(** C4 at work: [order_id] is selected while the fact about
    [customer_id] is on screen. *)
Lemma selection_replaces_on_arrival_witness :
  let s1 := setPropertyNeighbors [fact_about customer_id]
              (setSelectedProperty (Some customer_id)
                 (mount "" None search_page)) in
  let c := invoke (fun r => selectProperty r order_id) (s1, []) in
  let o := fire (stateless ontology) (fun r => selectProperty r order_id) tt s1 in
  propertyNeighbors (fst c) = [fact_about customer_id]
  /\ selectedProperty (final o) = Some order_id
  /\ propertyNeighbors (final o) = [fact_about order_id]
  /\ semanticLinks (final o) = [].
Proof.
  pose proof (selection_replaces_on_arrival (stateless ontology) tt tt tt
                (setPropertyNeighbors [fact_about customer_id]
                   (setSelectedProperty (Some customer_id)
                      (mount "" None search_page)))
                [] order_id
                (Fulfilled (mkResponse (Some [fact_about order_id]) None))
                (Fulfilled (mkResponse (Some []) None))
                eq_refl eq_refl) as ((_ & Hn & _) & (Hs & Hn' & Hl)).
  split; [exact Hn|]. split; [exact Hs|]. split; [exact Hn' | exact Hl].
Defined.

(** C5 at work on a query of three spaces. *)
Lemma search_blank_input_witness :
  let s := mount "   " None
             (Url.parsePath "/search/properties?query=customer") in
  let o := fire (stateless ontology) searchProperties tt s in
  whitespace_only (propertySearchQuery s)
  /\ url_param "query" s = Some "customer"
  /\ propertySearchResults (final o) = []
  /\ isPropertyDropdownOpen (final o) = false
  /\ url_param "query" (final o) = None
  /\ calls o = [].
Proof.
  assert (H : whitespace_only "   ").
  { repeat (apply made_one; [reflexivity|]). apply made_empty. }
  split; [exact H|]. split; [reflexivity|].
  exact (search_blank_input (stateless ontology) tt
           (mount "   " None (Url.parsePath "/search/properties?query=customer"))
           (mount "   " None (Url.parsePath "/search/properties?query=customer"))
           H).
Defined.

(** C6 at work: a contract property is assigned to [customer_id]. *)
Lemma handleAssign_submits_witness :
  let o := fire (stateless ontology) (handleAssign keys) tt assigning in
  selectedProperty assigning = Some customer_id
  /\ assignTargetType assigning = "data_contract_property"
  /\ selectedPropertyEntityId assigning <> ""
  /\ head (calls o)
     = Some (Call (Post "/api/semantic-links/"
                     (mkLinkPayload "c1#orders#total" "data_contract_property"
                        "https://ex.org/onto#CustomerId")))
  /\ assignDialogOpen (final o) = false
  /\ assignTargetType (final o) = ""
  /\ selectedPropertyEntityId (final o) = ""
  /\ selectedProperty (final o) = Some customer_id.
Proof.
  assert (Hne : selectedPropertyEntityId assigning <> "") by discriminate.
  pose proof (proj2 (handleAssign_submits (stateless ontology) keys tt
                       assigning customer_id eq_refl eq_refl)
                Hne (Fulfilled (mkResponse None None)) tt eq_refl)
    as (Hc & _ & Hopen & Htype & _ & _ & Hid & Hsel).
  split; [reflexivity|]. split; [reflexivity|]. split; [exact Hne|].
  split; [now rewrite Hc|].
  split; [exact Hopen|]. split; [exact Htype|]. split; [exact Hid | exact Hsel].
Defined.

(** C10 at work: the backend is down while [customer] is searched. *)
Lemma search_failure_keeps_url_witness :
  let s := mount "customer" None
             (Url.parsePath "/search/properties?query=cust") in
  let o := fire (stateless rejecting) searchProperties tt s in
  ~ whitespace_only (propertySearchQuery s)
  /\ propertySearchResults (final o) = []
  /\ isPropertyDropdownOpen (final o) = false
  /\ location (final o) = location s
  /\ url_param "query" (final o) = Some "cust".
Proof.
  assert (H : ~ whitespace_only "customer").
  { intros H. apply trim_empty_iff in H. discriminate H. }
  pose proof (search_failure_keeps_url (stateless rejecting) tt tt
                (mount "customer" None
                   (Url.parsePath "/search/properties?query=cust"))
                (mount "customer" None
                   (Url.parsePath "/search/properties?query=cust"))
                (Rejected "Network Error") H eq_refl) as (Hr & Hd & Hl & Hq).
  split; [exact H|]. split; [exact Hr|]. split; [exact Hd|].
  split; [exact Hl | exact Hq].
Defined.

(* ===================================================================== *)
(** * Further properties of the URL state                                 *)
(* ===================================================================== *)

(** X1. [updateUrl] writes no parameter but [query] and [iri]: any other
    parameter of the URL it started from is gone from the URL it
    navigates to. *)
Theorem updateUrl_drops_other_parameters (location_search : string)
    (updates : Updates) (other : string) :
  other <> "query" ->
  other <> "iri" ->
  Url.get other
    (Url.parse
       (Url.search (Url.parsePath (updateUrl_target location_search updates))))
  = None.
Proof.
  intros Hq Hi. rewrite updateUrl_params. unfold entry.
  assert (Eq : String.eqb "query" other = false).
  { apply String.eqb_neq. congruence. }
  assert (Ei : String.eqb "iri" other = false).
  { apply String.eqb_neq. congruence. }
  destruct (truthy (merged (upd_query updates) _)),
           (truthy (merged (upd_iri updates) _));
    cbn [app Url.get]; rewrite ?Eq, ?Ei; reflexivity.
Qed.

Lemma updateUrl_drops_other_parameters_witness :
  let before := "?page=2&query=customer" in
  let target := updateUrl_target before (mkUpdates None None) in
  Url.get "page" (Url.parse before) = Some "2"
  /\ Url.get "page" (Url.parse (Url.search (Url.parsePath target))) = None.
Proof.
  split; [reflexivity|].
  apply (updateUrl_drops_other_parameters "?page=2&query=customer"
           (mkUpdates None None) "page"); discriminate.
Defined.

Lemma merged_overlay (first second prior : option string) :
  merged second (present (merged first prior))
  = merged (match second with Some v => Some v | None => first end) prior.
Proof.
  destruct second as [v|]; [reflexivity|].
  cbn [merged]. apply value_of_present.
Qed.

(** X2. Two updates in a row navigate where the one update does that has,
    field by field, the later value when the later update gives one and the
    earlier otherwise; in particular an update that gives nothing leaves a
    URL that [updateUrl] wrote as it is. *)
Theorem updateUrl_composes (location_search : string) (first second : Updates) :
  let after_first :=
    Url.search (Url.parsePath (updateUrl_target location_search first)) in
  updateUrl_target after_first second
  = updateUrl_target location_search (overlay first second)
  /\ updateUrl_target after_first (mkUpdates None None)
     = updateUrl_target location_search first.
Proof.
  cbv zeta. split.
  - rewrite (updateUrl_target_eq _ second),
            (updateUrl_target_eq location_search (overlay first second)).
    cbv zeta. rewrite updateUrl_query, updateUrl_iri, !merged_overlay.
    reflexivity.
  - rewrite (updateUrl_target_eq _ (mkUpdates None None)).
    cbv zeta. rewrite updateUrl_query, updateUrl_iri.
    cbn [merged upd_query upd_iri]. rewrite !value_of_present.
    symmetry. apply updateUrl_target_eq.
Qed.

Section SearchFrame.

Context {W : Type} (env : responder W).

(** X3. Whatever the input and however its request settles, the debounced
    search of the current render leaves the value of the [iri] parameter
    of the URL as it was. *)
Theorem search_keeps_iri (w : W) (s : State) :
  let o := fire env searchProperties w s in
  value_of (url_param "iri" (final o)) = value_of (url_param "iri" s).
Proof.
  unfold fire, searchProperties.
  destruct (truthy (trim (propertySearchQuery s))); cbn [negb].
  - cbn [bind await run].
    destruct (env _ _ w) as [[res|m] w']; cbn [bind write run final updateUrl].
    + rewrite url_param_iri_navigate. cbn [merged upd_iri].
      apply value_of_present.
    + reflexivity.
  - cbn [bind write run final updateUrl].
    rewrite url_param_iri_navigate. cbn [merged upd_iri].
    apply value_of_present.
Qed.

(** X5. Clearing the search after a selection ends in the state that
    clearing it at once would have ended in: a selection, whatever its
    requests settled to, leaves nothing that [clearSearch] does not
    remove. *)
Theorem clear_undoes_selection (w w' : W) (s : State) (p : PropertyItem) :
  let selected := final (fire env (fun r => selectProperty r p) w s) in
  final (fire env clearSearch w' selected) = final (fire env clearSearch w' s).
Proof.
  unfold fire.
  destruct (env _ (neighbors_request p) w) as [r1 w1] eqn:H1.
  destruct (env _ (links_request p) w1) as [r2 w2] eqn:H2.
  cbv zeta. rewrite (selectProperty_final env s s p w w1 w2 r1 r2 H1 H2).
  reflexivity.
Qed.

End SearchFrame.

Section AssignGates.

Context {W : Type} (env : responder W).
Variable t : string -> string.

(** X6. [handleAssign] does nothing at all, no request and no change of
    state, when no property is selected, when no target type is chosen, and
    on the catalog column path. *)
Theorem handleAssign_gates (w : W) (s : State) :
  selectedProperty s = None
  \/ assignTargetType s = ""
  \/ assignTargetType s = "uc_column" ->
  let o := fire env (handleAssign t) w s in
  calls o = [] /\ final o = s /\ world o = w.
Proof.
  intros H. unfold fire, handleAssign.
  destruct (selectedProperty s) as [p|]; [|now repeat split].
  destruct H as [H|[H|H]]; [discriminate| |]; rewrite H; now repeat split.
Qed.

End AssignGates.

Lemma handleAssign_gates_witness :
  let o := fire (stateless ontology) (handleAssign keys) tt browsing_columns in
  assignTargetType browsing_columns = "uc_column"
  /\ calls o = []
  /\ final o = browsing_columns.
Proof.
  split; [reflexivity|].
  destruct (handleAssign_gates (stateless ontology) keys tt browsing_columns
              (or_intror (or_intror eq_refl))) as (Hc & Hf & _).
  split; [exact Hc | exact Hf].
Defined.

(* ===================================================================== *)
(** * Further properties of selection, search and enrichment              *)
(* ===================================================================== *)







Section SelectionRequests.

Context {W : Type} (env : responder W).



Lemma enrich_link_calls (link : SemanticLink) (w : W) (s : State) :
  List.length (calls (run env (enrich_link link) w s))
  = if needs_fetch link then 1 else 0.
Proof.
  unfold enrich_link, needs_fetch, segment. rewrite !opt_or_nth_error.
  destruct (String.eqb (entity_type link) "data_contract_property") eqn:E1.
  - apply String.eqb_eq in E1. rewrite E1.
    change (String.eqb "data_contract_property" "data_contract") with false.
    destruct (truthy (nth 0 (split "#" (entity_id link)) ""));
      cbn [andb orb bind await run calls]; [|reflexivity].
    now destruct (env _ _ w) as [[res|m] w'].
  - cbn [andb orb].
    destruct (String.eqb (entity_type link) "uc_column") eqn:E2.
    + apply String.eqb_eq in E2. rewrite E2. reflexivity.
    + destruct (String.eqb (entity_type link) "data_contract");
        cbn [bind await run calls]; [|reflexivity].
      now destruct (env _ _ w) as [[res|m] w'].
Qed.

Lemma enrich_loop_calls (links : list SemanticLink)
    (acc : list EnrichedSemanticLink) (w : W) (s : State) :
  List.length (calls (run env (enrich_loop links acc) w s))
  = List.length (filter needs_fetch links).
Proof.
  revert acc w s. induction links as [|l links IH]; intros acc w s;
    cbn [enrich_loop filter]; [reflexivity|].
  rewrite run_bind. cbv zeta. cbn [calls].
  rewrite length_app, IH, enrich_link_calls.
  destruct (needs_fetch l); reflexivity.
Qed.

(** X8. Enrichment sends one request for each link that is a contract, or
    a contract property whose entity id begins with a contract id, and none
    for any other link: never more requests than links, and none at all
    for catalog columns and types it does not know. *)
Theorem enrichment_request_count (links : list SemanticLink) (w : W)
    (s : State) :
  let o := run env (enrichSemanticLinksWithNames links) w s in
  List.length (calls o) = List.length (filter needs_fetch links)
  /\ List.length (calls o) <= List.length links
  /\ final o = s.
Proof.
  cbv zeta. unfold enrichSemanticLinksWithNames.
  rewrite enrich_loop_calls. split; [reflexivity|].
  split; [apply filter_length_le|].
  rewrite (run_writes_nothing env _ w s s (enrich_loop_writes_nothing links [])).
  reflexivity.
Qed.

(** The requests [selectProperty] sends, run without interruption. *)
Lemma selectProperty_calls (r s : State) (p : PropertyItem) (w w1 w2 : W)
    (r1 : settled (list Neighbor)) (r2 : settled (list SemanticLink)) :
  env _ (neighbors_request p) w = (r1, w1) ->
  env _ (links_request p) w1 = (r2, w2) ->
  exists rest,
    calls (run env (selectProperty r p) w s)
    = (Call (neighbors_request p) :: Call (links_request p) :: rest)%list
    /\ List.length rest
       = List.length
           (filter needs_fetch
              match r2 with
              | Fulfilled res => data_or_nil res
              | Rejected _ => []
              end).
Proof.
  intros H1 H2. unfold selectProperty, neighbors_request, links_request in *.
  cbn [bind write await run updateUrl].
  rewrite H1. cbn [bind run calls].
  destruct r1 as [res1|m1]; cbn [bind write run];
    rewrite H2; cbn [bind run calls];
    destruct r2 as [res2|m2]; cbn [bind write run calls];
    try (exists []; split; reflexivity).
  all: rewrite run_bind; cbv zeta; cbn [calls write run];
    eexists; (split; [reflexivity|]);
    rewrite app_nil_r; apply enrich_loop_calls.
Qed.

(** X16. [selectProperty] always sends the neighbor request and then the
    link request, also when the neighbor request is rejected, and after
    them one contract request for each link on screen at the end that
    needs one. *)
Theorem selectProperty_requests (w : W) (r s : State) (p : PropertyItem) :
  let o := run env (selectProperty r p) w s in
  exists rest,
    calls o
    = (Call (neighbors_request p) :: Call (links_request p) :: rest)%list
    /\ List.length rest
       = List.length
           (filter needs_fetch (map link_of (semanticLinks (final o))))
    /\ List.length rest <= List.length (semanticLinks (final o)).
Proof.
  cbv zeta.
  destruct (env _ (neighbors_request p) w) as [r1 w1] eqn:H1.
  destruct (env _ (links_request p) w1) as [r2 w2] eqn:H2.
  destruct (selectProperty_calls r s p w w1 w2 r1 r2 H1 H2) as (rest & Hc & Hl).
  exists rest. split; [exact Hc|].
  rewrite (selectProperty_final env r s p w w1 w2 r1 r2 H1 H2).
  cbn [semanticLinks setSemanticLinks].
  assert (Hm : map link_of (links_of env r2 w2)
               = match r2 with
                 | Fulfilled res => data_or_nil res
                 | Rejected _ => []
                 end).
  { destruct r2 as [res|m]; [|reflexivity].
    unfold links_of, enriched, enrichSemanticLinksWithNames.
    now rewrite enrich_loop_keeps_links. }
  rewrite Hm. split; [exact Hl|].
  rewrite Hl, <- (length_map link_of (links_of env r2 w2)), Hm.
  apply filter_length_le.
Qed.

End SelectionRequests.

(* ===================================================================== *)
(** * Assigning a catalog column                                          *)
(* ===================================================================== *)

Section Column.

Context {W : Type} (env : responder W).
Variable t : string -> string.

(** X7. [handleUCColumnSelect] does nothing for an asset without column
    name and when no property is selected.  Otherwise it posts
    [{entity_id: asset.full_name, entity_type: 'uc_column',
    iri: selectedProperty.value}]; on success it closes the assignment
    dialog and the asset browser and selects the property again, leaving
    the target type and the cascade as they were; on failure it shows the
    message of the error, with a fallback for an empty one, and changes
    nothing else. *)
Theorem handleUCColumnSelect_effects (w : W) (s : State)
    (asset : UC.UCAssetInfo) :
  let o := fire env (handleUCColumnSelect t asset) w s in
  (value_of (UC.column_name asset) = "" \/ selectedProperty s = None ->
   calls o = [] /\ final o = s)
  /\ (forall (p : PropertyItem) (a : settled SemanticLink) (w' : W),
        value_of (UC.column_name asset) <> "" ->
        selectedProperty s = Some p ->
        env _ (Post "/api/semantic-links/" (column_body asset p)) w = (a, w') ->
        match submission_error a with
        | Some message =>
            calls o = [Call (Post "/api/semantic-links/" (column_body asset p))]
            /\ final o
               = toast (error_toast t
                          (or_else message
                             (t "search:properties.messages.assignFailed"))) s
        | None =>
            let again :=
              run env (selectProperty s p) w'
                (setUCAssetDialogOpen false
                   (setAssignDialogOpen false (toast (success_toast t) s))) in
            calls o
            = (Call (Post "/api/semantic-links/" (column_body asset p))
               :: calls again)%list
            /\ final o = final again
            /\ assignDialogOpen (final o) = false
            /\ ucAssetDialogOpen (final o) = false
            /\ assignTargetType (final o) = assignTargetType s
            /\ selectedContractId (final o) = selectedContractId s
            /\ selectedSchemaName (final o) = selectedSchemaName s
            /\ selectedPropertyEntityId (final o) = selectedPropertyEntityId s
            /\ selectedProperty (final o) = Some p
        end).
Proof.
  cbv zeta. unfold fire, handleUCColumnSelect, value_of. split.
  - intros [H|H].
    + rewrite H. now split.
    + rewrite H. destruct (truthy _); now split.
  - intros p a w' Hc Hp Henv.
    assert (Ht : truthy (opt_or (UC.column_name asset) "") = true).
    { destruct (opt_or (UC.column_name asset) ""); [congruence | reflexivity]. }
    rewrite Ht, Hp. unfold column_body in *.
    cbn [negb bind await run]. rewrite Henv.
    destruct a as [res|m]; cbn [submission_error bind run].
    + destruct (truthy (opt_or (error res) "")); [now split|].
      unfold column_linked.
      cbn [bind write run result final world calls]. cbv zeta.
      destruct (env _ (neighbors_request p) w') as [r1 w1] eqn:H1.
      destruct (env _ (links_request p) w1) as [r2 w2] eqn:H2.
      rewrite (selectProperty_final env s _ p w' w1 w2 r1 r2 H1 H2).
      repeat split.
    + now split.
Qed.

End Column.

Lemma handleUCColumnSelect_effects_witness :
  let o := fire (stateless ontology) (handleUCColumnSelect keys amount_column)
             tt browsing_columns in
  value_of (UC.column_name amount_column) <> ""
  /\ selectedProperty browsing_columns = Some customer_id
  /\ head (calls o)
     = Some (Call (Post "/api/semantic-links/"
                     (mkLinkPayload "main.sales.orders.amount" "uc_column"
                        "https://ex.org/onto#CustomerId")))
  /\ assignDialogOpen (final o) = false
  /\ ucAssetDialogOpen (final o) = false
  /\ assignTargetType (final o) = "uc_column".
Proof.
  assert (Hc : value_of (UC.column_name amount_column) <> "") by discriminate.
  pose proof (proj2 (handleUCColumnSelect_effects (stateless ontology) keys tt
                       browsing_columns amount_column)
                customer_id (Fulfilled (mkResponse None None)) tt
                Hc eq_refl eq_refl)
    as (Hcalls & _ & Ha & Hu & Ht & _).
  split; [exact Hc|]. split; [reflexivity|].
  split; [now rewrite Hcalls|].
  split; [exact Ha|]. split; [exact Hu | exact Ht].
Defined.

(* ===================================================================== *)
(** * Loading and rendering                                               *)
(* ===================================================================== *)

Section Loading.

Context {W : Type} (env : responder W).

(** X15. At a URL without [iri] parameter, or with an empty one, the
    effect on the location sends no request and leaves the selection alone;
    the search box takes the [query] parameter of the URL when that is not
    empty and differs from the initial query, and is left alone
    otherwise. *)
Theorem syncFromUrl_without_iri (w : W) (s : State) (initialQuery : string) :
  value_of (url_param "iri" s) = "" ->
  let o := fire env (syncFromUrl initialQuery) w s in
  let urlQuery := value_of (url_param "query" s) in
  calls o = []
  /\ selectedProperty (final o) = selectedProperty s
  /\ location (final o) = location s
  /\ propertySearchQuery (final o)
     = (if truthy urlQuery && negb (String.eqb urlQuery initialQuery)
        then urlQuery
        else propertySearchQuery s).
Proof.
  intros Hi. cbv zeta. unfold fire, syncFromUrl, url_param, value_of in *.
  rewrite Hi. cbn [truthy]. rewrite run_bind. cbv zeta.
  destruct (truthy _ && negb _); repeat split.
Qed.

(** X12. Once the search is cleared neither the clear button nor the
    list of results is rendered; a focus on the search box then renders the
    list again exactly when results were on record before the clear. *)
Theorem focus_after_clear (w w' : W) (s : State) :
  let cleared := final (fire env clearSearch w s) in
  let focused := final (fire env onFocus w' cleared) in
  clear_button_shown cleared = false
  /\ dropdown_shown cleared = false
  /\ dropdown_shown focused
     = Nat.ltb 0 (List.length (propertySearchResults s)).
Proof.
  cbv zeta. unfold fire, clear_button_shown, dropdown_shown.
  cbn. repeat split.
  now destruct (propertySearchResults s).
Qed.

End Loading.

Lemma syncFromUrl_without_iri_witness :
  let s := mount "" None (Url.parsePath "/search/properties?query=customer") in
  let o := fire (stateless ontology) (syncFromUrl "") tt s in
  value_of (url_param "iri" s) = ""
  /\ calls o = []
  /\ propertySearchQuery (final o) = "customer".
Proof.
  destruct (syncFromUrl_without_iri (stateless ontology) tt
              (mount "" None (Url.parsePath "/search/properties?query=customer"))
              "" eq_refl) as (Hc & _ & _ & Hq).
  split; [reflexivity|]. split; [exact Hc | exact Hq].
Defined.



(* ===================================================================== *)
(** * Short names                                                         *)
(* ===================================================================== *)

Section Segments.

Variable f : ascii -> bool.

Lemma split_on_no_sep (s : string) :
  has_sep f s = false -> split_on f s = [s].
Proof.
  induction s as [|a r IH]; cbn [has_sep split_on]; intros H; [reflexivity|].
  apply orb_false_elim in H as [Ha Hr]. now rewrite Ha, (IH Hr).
Qed.

Lemma split_on_has_sep (s : string) :
  has_sep f s = true -> exists h x t, split_on f s = h :: x :: t.
Proof.
  induction s as [|a r IH]; cbn [has_sep split_on]; intros H; [discriminate|].
  destruct (f a) eqn:Ha.
  - destruct (split_on f r) as [|x t] eqn:E;
      [now destruct (split_on_not_nil f r)|].
    now exists "", x, t.
  - cbn in H. destruct (IH H) as (h & x & t & E). rewrite E.
    now exists (String a h), x, t.
Qed.

Lemma last_segment_cons (a : ascii) (r : string) :
  last_segment f (String a r)
  = if f a then last_segment f r
    else if has_sep f r then last_segment f r else String a r.
Proof.
  unfold last_segment. cbn [split_on].
  destruct (f a).
  - destruct (split_on f r) as [|x t] eqn:E;
      [now destruct (split_on_not_nil f r) | reflexivity].
  - destruct (has_sep f r) eqn:Hr.
    + destruct (split_on_has_sep r Hr) as (h & x & t & E). now rewrite E.
    + now rewrite (split_on_no_sep r Hr).
Qed.

Lemma last_segment_no_sep (s : string) :
  has_sep f s = false -> last_segment f s = s.
Proof. intros H. unfold last_segment. now rewrite (split_on_no_sep s H). Qed.

End Segments.

Lemma has_sep_either (s : string) :
  has_sep is_slash_or_hash s
  = has_sep (Ascii.eqb "/") s || has_sep (Ascii.eqb "#") s.
Proof.
  induction s as [|a r IH]; cbn [has_sep]; [reflexivity|].
  rewrite IH. unfold is_slash_or_hash.
  rewrite (Ascii.eqb_sym a "/"), (Ascii.eqb_sym a "#").
  destruct (Ascii.eqb "/" a), (Ascii.eqb "#" a),
           (has_sep (Ascii.eqb "/") r), (has_sep (Ascii.eqb "#") r);
    reflexivity.
Qed.

(** Cutting at the slashes and then at the hashes ends on the segment that
    cutting at both at once ends on. *)
Lemma last_segment_chained (s : string) :
  last_segment (Ascii.eqb "#") (last_segment (Ascii.eqb "/") s)
  = last_segment is_slash_or_hash s.
Proof.
  induction s as [|a r IH]; [reflexivity|].
  rewrite (last_segment_cons (Ascii.eqb "/")),
          (last_segment_cons is_slash_or_hash), has_sep_either.
  unfold is_slash_or_hash at 1.
  rewrite (Ascii.eqb_sym a "/"), (Ascii.eqb_sym a "#").
  destruct (Ascii.eqb "/" a) eqn:Ea; cbn [orb]; [exact IH|].
  destruct (has_sep (Ascii.eqb "/") r) eqn:Hs; cbn [orb].
  - now destruct (Ascii.eqb "#" a).
  - rewrite (last_segment_no_sep _ r Hs) in IH.
    rewrite (last_segment_cons (Ascii.eqb "#")).
    destruct (Ascii.eqb "#" a); [exact IH|].
    destruct (has_sep (Ascii.eqb "#") r); [exact IH | reflexivity].
Qed.

(** X11. The name shown before a literal attribute, cut first at the
    slashes and then at the hashes of the predicate, is the label the
    deep link gives a synthetic item of that IRI, cut at both at once; and
    it is empty for the empty predicate only. *)
Theorem attribute_name_is_synthetic_label (predicate : string) :
  attribute_name predicate = label (synthetic_item predicate)
  /\ (attribute_name predicate = "" <-> predicate = "").
Proof.
  assert (E : attribute_name predicate
              = or_else (last_segment is_slash_or_hash predicate) predicate).
  { unfold attribute_name, split. rewrite !pop_split_on.
    now rewrite last_segment_chained. }
  split.
  - rewrite E. unfold synthetic_item. cbn [label]. now rewrite pop_split_on.
  - rewrite E. unfold or_else. split.
    + destruct (last_segment is_slash_or_hash predicate); [auto | discriminate].
    + intros ->. reflexivity.
Qed.

(* ===================================================================== *)
(** * The selectors of the cascade                                        *)
(* ===================================================================== *)

Lemma find_first {A : Type} (f : A -> bool) (l : list A) (x : A) :
  In x l -> f x = true -> exists y, find f l = Some y.
Proof.
  intros Hin Hf. destruct (find f l) as [y|] eqn:E; [now exists y|].
  now rewrite (find_none f l E x Hin) in Hf.
Qed.

(** X9. The property selector lists properties exactly for the schema
    names the schema selector offers: for an offered name those of the
    first schema object of that name, by its name or else its physical
    name, and for any other name none. *)
Theorem offered_schema_resolves (detail : option Detail.ContractDetail)
    (chosen : string) :
  (In (Some chosen) (schemas detail) ->
   exists so,
     selectedSchema detail chosen = Some so
     /\ In so (schemaObjects detail)
     /\ schema_label so = Some chosen
     /\ properties detail chosen
        = match Detail.properties so with
          | Some l => l
          | None => []
          end)
  /\ (~ In (Some chosen) (schemas detail) ->
      selectedSchema detail chosen = None /\ properties detail chosen = []).
Proof.
  unfold schemas, properties, selectedSchema. split.
  - intros H. apply in_map_iff in H as (so0 & Hl & Hin).
    assert (Hf : is_string (schema_label so0) chosen = true).
    { rewrite Hl. cbn. apply String.eqb_refl. }
    destruct (find_first (fun so => is_string (schema_label so) chosen)
                _ so0 Hin Hf) as [so Hso].
    exists so. rewrite Hso. apply find_some in Hso as [Hin' Hs].
    repeat split; [exact Hin'|].
    unfold is_string in Hs. destruct (schema_label so) as [v|]; [|discriminate].
    apply String.eqb_eq in Hs. now subst v.
  - intros H.
    destruct (find _ (schemaObjects detail)) as [so|] eqn:E; [|now split].
    exfalso. apply H. apply find_some in E as [Hin Hs].
    apply in_map_iff. exists so. split; [|exact Hin].
    unfold is_string in Hs. destruct (schema_label so) as [v|]; [|discriminate].
    apply String.eqb_eq in Hs. now subst v.
Qed.

Lemma offered_schema_resolves_witness :
  In (Some "orders") (schemas (Some orders_detail))
  /\ properties (Some orders_detail) "orders"
     = [Detail.mkProperty "id"; Detail.mkProperty "total"]
  /\ ~ In (Some "customers") (schemas (Some orders_detail))
  /\ properties (Some orders_detail) "customers" = [].
Proof.
  assert (H1 : In (Some "orders") (schemas (Some orders_detail)))
    by (left; reflexivity).
  assert (H2 : ~ In (Some "customers") (schemas (Some orders_detail))).
  { intros [H|[H|[]]]; discriminate H. }
  destruct (offered_schema_resolves (Some orders_detail) "orders")
    as [Hyes _].
  destruct (offered_schema_resolves (Some orders_detail) "customers")
    as [_ Hno].
  destruct (Hyes H1) as (so & _ & _ & _ & Hp).
  split; [exact H1|]. split; [reflexivity|]. split; [exact H2|].
  exact (proj2 (Hno H2)).
Defined.

Lemma split_three (a b c : string) :
  includes "#" a = false -> includes "#" b = false -> includes "#" c = false ->
  split "#" (a ++ "#" ++ b ++ "#" ++ c) = [a; b; c].
Proof.
  intros Ha Hb Hc.
  change (a ++ "#" ++ b ++ "#" ++ c) with (a ++ String "#" (b ++ String "#" c)).
  now rewrite (split_app_sep _ _ _ Ha), (split_app_sep _ _ _ Hb),
    (split_none _ _ Hc).
Qed.

(** X17. The entity id the property selector makes of a contract id, a
    schema name and a property name without [#] is cut back by the
    enrichment into these three; the link the cascade creates with it is
    named [<contract title>#<schema>.<property>], trimmed, when the contract
    is fetched, and by its entity id when the fetch is rejected. *)
Theorem cascade_entity_id_round_trip (contractId schemaName : string)
    (p : Detail.SchemaProperty) (answer : forall T, request T -> settled T)
    (s : State) :
  contractId <> "" ->
  includes "#" contractId = false ->
  includes "#" schemaName = false ->
  includes "#" (Detail.name p) = false ->
  let link := cascade_link contractId schemaName p in
  let o := run (stateless answer) (enrichSemanticLinksWithNames [link]) tt s in
  split "#" (entity_id link) = [contractId; schemaName; Detail.name p]
  /\ map entity_name (result o)
     = [Some match answer _ (GetAny ("/api/data-contracts/" ++ contractId)) with
             | Fulfilled res =>
                 trim (composite_name (contract_title res contractId)
                         schemaName (Detail.name p))
             | Rejected _ => entityId contractId schemaName p
             end].
Proof.
  intros Hne Hc Hs Hp. cbv zeta.
  assert (E : split "#" (entityId contractId schemaName p)
              = [contractId; schemaName; Detail.name p])
    by (apply split_three; assumption).
  split; [exact E|].
  unfold enrichSemanticLinksWithNames. rewrite enrich_loop_stateless.
  cbn [app map entity_name named]. unfold resolved_name, segment.
  cbn [entity_type entity_id cascade_link]. rewrite E. cbn [nth String.eqb Ascii.eqb Bool.eqb].
  destruct contractId; [congruence | reflexivity].
Qed.

Lemma cascade_entity_id_round_trip_witness :
  let link := cascade_link "c1" "orders" (Detail.mkProperty "total") in
  let o := run (stateless orders_backend) (enrichSemanticLinksWithNames [link])
             tt (mount "" None search_page) in
  entity_id link = "c1#orders#total"
  /\ split "#" (entity_id link) = ["c1"; "orders"; "total"]
  /\ map entity_name (result o) = [Some "Orders#orders.total"].
Proof.
  split; [reflexivity|].
  apply (cascade_entity_id_round_trip "c1" "orders" (Detail.mkProperty "total")
           orders_backend (mount "" None search_page));
    [discriminate | reflexivity | reflexivity | reflexivity].
Defined.


(* ===================================================================== *)
(** * Unity Catalog asset types                                           *)
(* ===================================================================== *)

Ltac by_asset_type type :=
  repeat match goal with
         | |- context [String.eqb type ?v] =>
             destruct (String.eqb_spec type v); [subst type; vm_compute; tauto|]
         end.

(** X13. Of the strings, exactly the values of [UCAssetType] are container
    types or selectable types, and none is both; the containers are the
    catalog and the schema, and the display name of a string is [Unknown]
    exactly when it is no asset type.  The types the component allows in
    the asset browser are selectable. *)
Theorem asset_types_partition (type : string) :
  (UC.isContainerType type || UC.isSelectableType type
   = UC.includes_type UC.all_types type)
  /\ UC.isContainerType type && UC.isSelectableType type = false
  /\ (String.eqb (UC.getAssetTypeDisplayName type) "Unknown"
      = negb (UC.includes_type UC.all_types type))
  /\ forallb (fun t => UC.isSelectableType (UC.value_of_type t)) UC.allowedTypes
     = true.
Proof.
  unfold UC.isContainerType, UC.isSelectableType, UC.getAssetTypeDisplayName,
    UC.includes_type, UC.all_types, UC.SELECTABLE_ASSET_TYPES, UC.allowedTypes.
  cbn [existsb forallb UC.value_of_type].
  rewrite !(String.eqb_sym _ type).
  by_asset_type type.
  vm_compute. tauto.
Qed.

Lemma lookup_in (key : string) (table : list (string * UC.UCAssetType))
    (t : UC.UCAssetType) :
  UC.lookup key table = Some t -> In (key, t) table.
Proof.
  induction table as [|[k v] rest IH]; cbn [UC.lookup]; [discriminate|].
  destruct (String.eqb_spec k key) as [->|_].
  - intros [= ->]. now left.
  - intros H. right. now apply IH.
Qed.

(** X14. [TYPE_PREFIX_MAP] has no key twice; every key it has stands for a
    selectable asset type, never for a container or a column; and the name
    of each selectable asset type is a key that stands for that type. *)
Theorem type_prefixes_are_selectable (key : string) (t : UC.UCAssetType) :
  NoDup (map fst UC.TYPE_PREFIX_MAP)
  /\ (UC.lookup key UC.TYPE_PREFIX_MAP = Some t ->
      In t UC.SELECTABLE_ASSET_TYPES
      /\ UC.isSelectableType (UC.value_of_type t) = true
      /\ UC.isContainerType (UC.value_of_type t) = false
      /\ t <> UC.COLUMN)
  /\ (In t UC.SELECTABLE_ASSET_TYPES ->
      UC.lookup (UC.value_of_type t) UC.TYPE_PREFIX_MAP = Some t).
Proof.
  split; [|split].
  - cbn. repeat (constructor; [cbn; intuition discriminate|]). constructor.
  - intros H. apply lookup_in in H. cbn in H.
    repeat (destruct H as [[= <- <-]|H];
            [repeat split; cbn; (tauto || discriminate)|]).
    destruct H.
  - intros H. cbn in H.
    repeat (destruct H as [<-|H]; [reflexivity|]). destruct H.
Qed.

Lemma type_prefixes_are_selectable_witness :
  UC.lookup "mv" UC.TYPE_PREFIX_MAP = Some UC.MATERIALIZED_VIEW
  /\ UC.isSelectableType (UC.value_of_type UC.MATERIALIZED_VIEW) = true
  /\ UC.lookup (UC.value_of_type UC.VOLUME) UC.TYPE_PREFIX_MAP = Some UC.VOLUME.
Proof.
  split; [reflexivity|]. split.
  - exact (proj1 (proj2 (proj1 (proj2 (type_prefixes_are_selectable
                                         "mv" UC.MATERIALIZED_VIEW))
                           eq_refl))).
  - apply (proj2 (proj2 (type_prefixes_are_selectable "x" UC.VOLUME))).
    cbn. tauto.
Defined.

(* ===================================================================== *)
(** * The label of a link type                                            *)
(* ===================================================================== *)

Lemma toUpperCase_facts (c : ascii) :
  toUpperCase (toUpperCase c) = toUpperCase c
  /\ is_word (toUpperCase c) = is_word c
  /\ (Ascii.eqb (toUpperCase c) "_" = Ascii.eqb c "_").
Proof. destruct c as [[] [] [] [] [] [] [] []]; vm_compute; repeat split. Qed.

Lemma capitalize_length (b : bool) (s : string) :
  String.length (capitalize_words b s) = String.length s.
Proof.
  revert b. induction s as [|c r IH]; intros b; cbn; [reflexivity|].
  now rewrite IH.
Qed.

Lemma capitalize_idempotent (b : bool) (s : string) :
  capitalize_words b (capitalize_words b s) = capitalize_words b s.
Proof.
  revert b. induction s as [|c r IH]; intros b; cbn [capitalize_words];
    [reflexivity|].
  destruct (toUpperCase_facts c) as (Hi & Hw & _).
  destruct (b && is_word c) eqn:E.
  - rewrite Hw, E, Hi, IH. reflexivity.
  - rewrite E, IH. reflexivity.
Qed.

Lemma capitalize_no_underscore (b : bool) (s : string) :
  includes "_" s = false -> includes "_" (capitalize_words b s) = false.
Proof.
  revert b. induction s as [|c r IH]; intros b; cbn [capitalize_words includes];
    [reflexivity|].
  intros H. apply orb_false_elim in H as [Hc Hr].
  destruct (toUpperCase_facts c) as (_ & _ & Hu).
  rewrite (IH _ Hr). destruct (b && is_word c); now rewrite ?Hu, Hc.
Qed.

Lemma spaces_no_underscore (s : string) :
  includes "_" (underscores_to_spaces s) = false.
Proof.
  induction s as [|c r IH]; cbn [underscores_to_spaces includes];
    [reflexivity|].
  rewrite IH. now destruct (Ascii.eqb_spec c "_") as [->|H];
    [|apply Ascii.eqb_neq in H; rewrite H].
Qed.

Lemma spaces_length (s : string) :
  String.length (underscores_to_spaces s) = String.length s.
Proof. induction s as [|c r IH]; cbn; [reflexivity | now rewrite IH]. Qed.

Lemma spaces_unchanged (s : string) :
  includes "_" s = false -> underscores_to_spaces s = s.
Proof.
  induction s as [|c r IH]; cbn [underscores_to_spaces includes];
    [reflexivity|].
  intros H. apply orb_false_elim in H as [Hc Hr]. now rewrite Hc, (IH Hr).
Qed.

(** X18. The label of a link type other than [uc_column] and [uc_table] has
    as many characters as the type, has no underscore, and is a label the
    same rule leaves as it is. *)
Theorem typeLabel_shape (t : string -> string) (link : EnrichedSemanticLink) :
  entity_type (link_of link) <> "uc_column" ->
  entity_type (link_of link) <> "uc_table" ->
  String.length (typeLabel t link)
  = String.length (entity_type (link_of link))
  /\ includes "_" (typeLabel t link) = false
  /\ capitalize_words true (underscores_to_spaces (typeLabel t link))
     = typeLabel t link.
Proof.
  intros Hc Ht. unfold typeLabel. cbv zeta.
  apply String.eqb_neq in Hc, Ht. rewrite Hc, Ht.
  split; [now rewrite capitalize_length, spaces_length|].
  assert (Hn : includes "_"
                 (capitalize_words true
                    (underscores_to_spaces (entity_type (link_of link))))
               = false).
  { apply capitalize_no_underscore, spaces_no_underscore. }
  split; [exact Hn|].
  rewrite (spaces_unchanged _ Hn). apply capitalize_idempotent.
Qed.

Lemma typeLabel_shape_witness :
  let link := mkEnriched total_link (Some "Orders#orders.total") in
  typeLabel keys link = "Data Contract Property"
  /\ String.length (typeLabel keys link) = 22
  /\ includes "_" (typeLabel keys link) = false.
Proof.
  assert (Hc : entity_type total_link <> "uc_column") by discriminate.
  assert (Ht : entity_type total_link <> "uc_table") by discriminate.
  destruct (typeLabel_shape keys
              (mkEnriched total_link (Some "Orders#orders.total"))
              Hc Ht) as (Hl & Hn & _).
  split; [reflexivity|]. split; [exact Hl | exact Hn].
Defined.

(* ===================================================================== *)
(** * Search responses that arrive late                                   *)
(* ===================================================================== *)

(** X19. The debounced search on an input that is not blank suspends on
    its request without a write; and its response, when fulfilled, is
    applied to whatever state the component is in by then, without a look
    at the query of that state: the hits become the results, the dropdown
    opens when there is a hit, and the URL takes the input searched as
    its [query]. *)
Theorem search_response_applies_late (r s : State) :
  ~ whitespace_only (propertySearchQuery r) ->
  exists k,
    advance (searchProperties r) s
    = (s, Some (Task (search_request (propertySearchQuery r)) k))
    /\ forall (later : State) (res : ApiResponse (list PropertyItem)),
         let arrived := advance (k (Fulfilled res)) later in
         snd arrived = None
         /\ propertySearchResults (fst arrived) = data_or_nil res
         /\ isPropertyDropdownOpen (fst arrived)
            = Nat.ltb 0 (List.length (data_or_nil res))
         /\ propertySearchQuery (fst arrived) = propertySearchQuery later
         /\ url_param "query" (fst arrived) = Some (propertySearchQuery r).
Proof.
  intros Hq.
  assert (Ht : truthy (trim (propertySearchQuery r)) = true).
  { destruct (trim (propertySearchQuery r)) eqn:E; [|reflexivity].
    exfalso. now apply Hq, trim_empty_iff. }
  assert (Hn : truthy (propertySearchQuery r) = true).
  { destruct (propertySearchQuery r); [|reflexivity].
    exfalso. apply Hq. constructor. }
  unfold searchProperties, search_request. rewrite Ht. cbn [negb].
  eexists. split; [reflexivity|].
  intros later res. cbv zeta. cbn [bind write advance fst snd updateUrl].
  repeat split.
  rewrite url_param_query_navigate. cbn [merged upd_query].
  unfold present. now rewrite Hn.
Qed.

Lemma search_response_applies_late_witness :
  let typing := mount "customer" None search_page in
  let late :=
    settle ontology 0
      (invoke clearSearch (invoke searchProperties (typing, []))) in
  ~ whitespace_only (propertySearchQuery typing)
  /\ propertySearchQuery (fst late) = ""
  /\ propertySearchResults (fst late) = [customer_id]
  /\ dropdown_shown (fst late) = true
  /\ url_param "query" (fst late) = Some "customer".
Proof.
  assert (H : ~ whitespace_only "customer").
  { intros H. apply trim_empty_iff in H. discriminate H. }
  destruct (search_response_applies_late
              (mount "customer" None search_page)
              (mount "customer" None search_page) H) as (k & Hk & Hlate).
  split; [exact H|]. repeat split.
Defined.
